(** * ipmon: network-state monitor (package bonan.se/ipmon, file monitor.go)

    A shallow embedding of the monitoring engine: the snapshot function
    [genUpdate], the three update derivers [addrUpdate], [linkUpdate] and
    [routeUpdate], the event loop [Monitor] and the environment marshaller
    [MarshalEnv], and of the daemon built on it (cmd/ipmond/main.go): the
    supervisor notifications [notifyOpen] and [sdnotify], the handler and
    [main]; followed by the properties of the specification and further
    properties of the code.

    Conventions.
    - Go integers ([int], [uint32], [uint8] ...) are [Z]; a byte is a [Z] in
      [0, 256) and [&] is [Z.land].
    - A Go slice that may be [nil] ([net.IP], [net.IPMask]) is an
      [option (list Z)], [None] being the nil slice; [len] of nil is 0.
    - A Go pointer that the code tests against [nil] is an [option].
      The elements of [Update.Routes], [Interface.Addr] and the values of
      [Update.Interfaces] are pointers that this package always fills with
      the address of a fresh struct; they are embedded as the structs.
    - A Go map is a [gmap]; ranging over it visits the entries in an order
      the language leaves open, which the embedding takes as an argument.
    - The kernel, which the code reads through package netlink, is an
      explicit [Kernel] record of enumeration results.
    - A [time.Duration] is an [int64]: the period of the ticker is computed
      with wrap-around, and [time.NewTicker] panics on a period that is not
      positive.
    - What the daemon does to the outside (dialling, writing to and closing
      the notification socket, running its command) is a trace of effects;
      the outcomes of dials and writes are given by the host.  Logging is
      left out. *)

From Stdlib Require Import ZArith Ascii.
From stdpp Require Import base list gmap strings sorting pretty.

Local Open Scope Z_scope.

(** ** Package net of the Go standard library: addresses *)

Module net.

Definition IP := option (list Z).
Definition IPMask := option (list Z).

Record IPNet := { IPNet_IP : IP; IPNet_Mask : IPMask }.

Definition IPv4len : nat := 4.
Definition IPv6len : nat := 16.

(** The bytes of a slice, and [b[i]] (read only under a length check). *)
Definition bytes (s : option (list Z)) : list Z := default [] s.
Definition at_ (b : list Z) (i : nat) : Z := nth i b 0.
Definition len (s : option (list Z)) : nat := length (bytes s).
Definition nonnil (s : option (list Z)) : bool := bool_decide (s ≠ None).

Definition bytesEqual (x y : list Z) : bool := bool_decide (x = y).

Definition v4InV6Prefix : list Z := [0; 0; 0; 0; 0; 0; 0; 0; 0; 0; 0xff; 0xff].

(** [IPv4(a, b, c, d)]: the 16-byte form of an IPv4 address. *)
Definition IPv4 (a b c d : Z) : IP := Some (v4InV6Prefix ++ [a; b; c; d]).

Definition IPv4bcast : IP := IPv4 255 255 255 255.
Definition IPv4zero : IP := IPv4 0 0 0 0.
Definition IPv6unspecified : IP := Some (replicate 16 0).
Definition IPv6loopback : IP := Some (replicate 15 0 ++ [1]).

Definition isZeros (p : list Z) : bool := forallb (Z.eqb 0) p.

Definition To4 (ip : IP) : IP :=
  if (len ip =? IPv4len)%nat then ip
  else if (len ip =? IPv6len)%nat
          && isZeros (take 10 (bytes ip))
          && (at_ (bytes ip) 10 =? 0xff)
          && (at_ (bytes ip) 11 =? 0xff)
       then Some (take 4 (drop 12 (bytes ip)))
       else None.

Definition To16 (ip : IP) : IP :=
  if (len ip =? IPv4len)%nat then
    IPv4 (at_ (bytes ip) 0) (at_ (bytes ip) 1) (at_ (bytes ip) 2) (at_ (bytes ip) 3)
  else if (len ip =? IPv6len)%nat then ip
  else None.

Definition Equal (ip x : IP) : bool :=
  if (len ip =? len x)%nat then bytesEqual (bytes ip) (bytes x)
  else if (len ip =? IPv4len)%nat && (len x =? IPv6len)%nat then
    bytesEqual (take 12 (bytes x)) v4InV6Prefix
    && bytesEqual (bytes ip) (drop 12 (bytes x))
  else if (len ip =? IPv6len)%nat && (len x =? IPv4len)%nat then
    bytesEqual (take 12 (bytes ip)) v4InV6Prefix
    && bytesEqual (drop 12 (bytes ip)) (bytes x)
  else false.

Definition IsUnspecified (ip : IP) : bool :=
  Equal ip IPv4zero || Equal ip IPv6unspecified.

Definition IsLoopback (ip : IP) : bool :=
  match To4 ip with
  | Some ip4 => at_ ip4 0 =? 127
  | None => Equal ip IPv6loopback
  end.

Definition IsPrivate (ip : IP) : bool :=
  match To4 ip with
  | Some ip4 =>
      (at_ ip4 0 =? 10)
      || ((at_ ip4 0 =? 172) && (Z.land (at_ ip4 1) 0xf0 =? 16))
      || ((at_ ip4 0 =? 192) && (at_ ip4 1 =? 168))
  | None => (len ip =? IPv6len)%nat && (Z.land (at_ (bytes ip) 0) 0xfe =? 0xfc)
  end.

Definition IsMulticast (ip : IP) : bool :=
  match To4 ip with
  | Some ip4 => Z.land (at_ ip4 0) 0xf0 =? 0xe0
  | None => (len ip =? IPv6len)%nat && (at_ (bytes ip) 0 =? 0xff)
  end.

Definition IsLinkLocalUnicast (ip : IP) : bool :=
  match To4 ip with
  | Some ip4 => (at_ ip4 0 =? 169) && (at_ ip4 1 =? 254)
  | None =>
      (len ip =? IPv6len)%nat
      && (at_ (bytes ip) 0 =? 0xfe)
      && (Z.land (at_ (bytes ip) 1) 0xc0 =? 0x80)
  end.

Definition IsGlobalUnicast (ip : IP) : bool :=
  ((len ip =? IPv4len)%nat || (len ip =? IPv6len)%nat)
  && negb (Equal ip IPv4bcast)
  && negb (IsUnspecified ip)
  && negb (IsLoopback ip)
  && negb (IsMulticast ip)
  && negb (IsLinkLocalUnicast ip).

(** *** Masks *)

(** The inner loop of [simpleMaskLength]: [for v&0x80 != 0 { n++; v <<= 1 }]
    on a [uint8]; eight rounds exhaust the byte. *)
Fixpoint leadingOnes (rounds : nat) (n v : Z) : Z * Z :=
  match rounds with
  | O => (n, v)
  | S rounds' =>
      if Z.land v 0x80 =? 0 then (n, v)
      else leadingOnes rounds' (n + 1) (Z.shiftl v 1 mod 256)
  end.

Fixpoint simpleMaskLength_from (n : Z) (mask : list Z) : Z :=
  match mask with
  | [] => n
  | v :: rest =>
      if v =? 0xff then simpleMaskLength_from (n + 8) rest
      else
        let '(n', v') := leadingOnes 8 n v in
        if negb (v' =? 0) then -1
        else if isZeros rest then n' else -1
  end.

Definition simpleMaskLength (mask : IPMask) : Z :=
  simpleMaskLength_from 0 (bytes mask).

(** [IPMask.Size]: the number of leading ones and the width, (0, 0) for a
    mask that is not in canonical form. *)
Definition Size (m : IPMask) : Z * Z :=
  let ones := simpleMaskLength m in
  if ones =? -1 then (0, 0) else (ones, Z.of_nat (len m) * 8).

(** *** Text *)

Definition hexDigit (n : Z) : string :=
  match String.get (Z.to_nat n) "0123456789abcdef" with
  | Some c => String c ""
  | None => ""
  end.

Definition hexString (b : list Z) : string :=
  foldr (λ v s, hexDigit (Z.shiftr v 4) +:+ hexDigit (Z.land v 0xf) +:+ s) "" b.

Definition IPMask_String (m : IPMask) : string :=
  if (len m =? 0)%nat then "<nil>" else hexString (bytes m).

(** The text codec of addresses: [IP.String] and [ParseIP].  The engine
    treats both as black boxes; everything below holds for every codec. *)
Class Codec := {
  IP_String : IP → string;
  ParseIP : string → IP;
}.

Definition networkNumberAndMask (n : IPNet) : IP * IPMask :=
  let ip4 := To4 (IPNet_IP n) in
  let ip := if nonnil ip4 then ip4 else IPNet_IP n in
  if negb (nonnil ip4) && negb (len ip =? IPv6len)%nat then (None, None)
  else if (len (IPNet_Mask n) =? IPv4len)%nat then
    if negb (len ip =? IPv4len)%nat then (None, None)
    else (ip, IPNet_Mask n)
  else if (len (IPNet_Mask n) =? IPv6len)%nat then
    if (len ip =? IPv4len)%nat
    then (ip, Some (drop 12 (bytes (IPNet_Mask n))))
    else (ip, IPNet_Mask n)
  else (None, None).

(** [IPNet.String] on a non-nil receiver. *)
Definition IPNet_String `{Codec} (n : IPNet) : string :=
  let '(nn, m) := networkNumberAndMask n in
  if negb (nonnil nn) || negb (nonnil m) then "<nil>"
  else
    let l := simpleMaskLength m in
    if l =? -1 then IP_String nn +:+ "/" +:+ IPMask_String m
    else IP_String nn +:+ "/" +:+ pretty l.

End net.

(** ** Package unix: the constants the engine uses *)

Module unix.
Definition IFF_UP : Z := 0x1.
Definition IFF_BROADCAST : Z := 0x2.
Definition IFF_LOOPBACK : Z := 0x8.
Definition IFF_POINTOPOINT : Z := 0x10.
Definition IFF_NOARP : Z := 0x80.
Definition IFF_PROMISC : Z := 0x100.
Definition IFF_MULTICAST : Z := 0x1000.
Definition RTM_NEWROUTE : Z := 0x18.
Definition RTM_DELROUTE : Z := 0x19.
End unix.

(** ** Package netlink: the records the engine reads *)

Module netlink.

Definition SCOPE_UNIVERSE : Z := 0x0.
Definition SCOPE_LINK : Z := 0xfd.

Record LinkAttrs := { Index : Z; Name : string; Flags : Z }.

(** A non-nil [Link] interface value; its [Attrs()] may be nil. *)
Record Link := { Attrs : option LinkAttrs }.

(** [Addr] embeds [*net.IPNet], which netlink sets for every address it
    lists; [IP] and [Mask] are the promoted fields. *)
Record Addr := { IP : net.IP; Mask : net.IPMask; ValidLft : Z }.

(** The fields of [Route] the engine reads.  [Protocol] is the field in
    which the marshaller looks for the family of a route, 4 or 6. *)
Record Route := {
  LinkIndex : Z;
  ILinkIndex : Z;
  Scope : Z;
  Dst : option net.IPNet;
  Src : net.IP;
  Gw : net.IP;
  Protocol : Z;
  Priority : Z;
  Table : Z;
}.

Record AddrUpdate := {
  LinkAddress : net.IPNet;
  AddrUpdate_LinkIndex : Z;
  NewAddr : bool;
}.

(** [LinkUpdate] embeds the kernel's [IfInfomsg] ([Flags], [Change], both
    [uint32]) and a [Link], nil when [LinkUpdate_Link] is [None]. *)
Record LinkUpdate := {
  LinkUpdate_Flags : Z;
  LinkUpdate_Change : Z;
  LinkUpdate_Link : option Link;
}.

(** [RouteUpdate] is a message type ([uint16]) and an embedded [Route]. *)
Record RouteUpdate := { RouteUpdate_Type : Z; RouteUpdate_Route : Route }.

(** Neighbour records; the engine reads none of their fields. *)
Record NeighUpdate := { NeighUpdate_Type : Z }.

End netlink.

(** ** Package sort: [sort.Strings]

    Go compares strings byte by byte, a proper prefix before its
    extensions; that is [String.leb].  [sort.Strings] puts the slice in
    increasing order.  The order is total and antisymmetric, so the result
    does not depend on the sorting algorithm ([Strings_unique] below); merge
    sort stands for it. *)

Module sort.
Definition le (s t : string) : Prop := String.leb s t = true.

#[export] Instance le_dec : RelDecision le.
Proof. intros s t. unfold le. apply _. Defined.

Definition Strings (l : list string) : list string := merge_sort le l.
End sort.

(** ** Package time of the Go standard library: durations and tickers

    A [Duration] is an [int64] count of nanoseconds, and its arithmetic
    wraps around.  On the 64-bit builds of the daemon an [int] has 64 bits
    too, so the conversion [time.Duration(i)] changes nothing.
    [NewTicker(d)] panics when [d] is not positive. *)

Module time.

(** The value of an integer as an [int64]. *)
Definition int64 (z : Z) : Z := (z + 2 ^ 63) mod 2 ^ 64 - 2 ^ 63.

Definition Duration (i : Z) : Z := int64 i.

Definition Second : Z := 1000000000.

(** [d * e] on durations. *)
Definition mul (d e : Z) : Z := int64 (d * e).

(** [NewTicker(d)]: the period of the ticker, or [None] for the panic. *)
Definition NewTicker (d : Z) : option Z :=
  if d <=? 0 then None else Some d.

End time.

(** ** Package ipmon: data *)

Record Address := {
  Address_N : netlink.Addr;
  Address_Address : string;
  Address_CIDR : Z;
}.

Record Route := {
  Route_Destination : string;
  Route_Gateway : string;
  Route_Link : string;
  Route_Src : string;
  Route_route : netlink.Route;
}.

Record Interface := {
  Interface_Up : bool;
  Interface_link : option netlink.Link;
  Interface_Addr : list Address;
}.

Record Update := {
  Update_Type : string;
  Update_Change : list string;
  Update_Link : string;
  Update_Address : option Address;
  Update_Gateway : string;
  Update_Source : string;
  Update_Routes : list Route;
  Update_Interfaces : gmap string Interface;
}.

(** Zero values, as Go gives to fields a composite literal leaves out. *)
Definition zero_Addr : netlink.Addr :=
  {| netlink.IP := None; netlink.Mask := None; netlink.ValidLft := 0 |}.

Definition zero_Update : Update :=
  {| Update_Type := ""; Update_Change := []; Update_Link := "";
     Update_Address := None; Update_Gateway := ""; Update_Source := "";
     Update_Routes := []; Update_Interfaces := ∅ |}.

(** Assignments to one field of an [Update]. *)
Definition set_Type (v : string) (u : Update) : Update :=
  {| Update_Type := v; Update_Change := Update_Change u;
     Update_Link := Update_Link u; Update_Address := Update_Address u;
     Update_Gateway := Update_Gateway u; Update_Source := Update_Source u;
     Update_Routes := Update_Routes u;
     Update_Interfaces := Update_Interfaces u |}.

Definition set_Change (v : list string) (u : Update) : Update :=
  {| Update_Type := Update_Type u; Update_Change := v;
     Update_Link := Update_Link u; Update_Address := Update_Address u;
     Update_Gateway := Update_Gateway u; Update_Source := Update_Source u;
     Update_Routes := Update_Routes u;
     Update_Interfaces := Update_Interfaces u |}.

Definition set_Link (v : string) (u : Update) : Update :=
  {| Update_Type := Update_Type u; Update_Change := Update_Change u;
     Update_Link := v; Update_Address := Update_Address u;
     Update_Gateway := Update_Gateway u; Update_Source := Update_Source u;
     Update_Routes := Update_Routes u;
     Update_Interfaces := Update_Interfaces u |}.

Definition set_Address (v : option Address) (u : Update) : Update :=
  {| Update_Type := Update_Type u; Update_Change := Update_Change u;
     Update_Link := Update_Link u; Update_Address := v;
     Update_Gateway := Update_Gateway u; Update_Source := Update_Source u;
     Update_Routes := Update_Routes u;
     Update_Interfaces := Update_Interfaces u |}.

Definition set_Gateway (v : string) (u : Update) : Update :=
  {| Update_Type := Update_Type u; Update_Change := Update_Change u;
     Update_Link := Update_Link u; Update_Address := Update_Address u;
     Update_Gateway := v; Update_Source := Update_Source u;
     Update_Routes := Update_Routes u;
     Update_Interfaces := Update_Interfaces u |}.

Definition set_Source (v : string) (u : Update) : Update :=
  {| Update_Type := Update_Type u; Update_Change := Update_Change u;
     Update_Link := Update_Link u; Update_Address := Update_Address u;
     Update_Gateway := Update_Gateway u; Update_Source := v;
     Update_Routes := Update_Routes u;
     Update_Interfaces := Update_Interfaces u |}.

Definition set_Routes (v : list Route) (u : Update) : Update :=
  {| Update_Type := Update_Type u; Update_Change := Update_Change u;
     Update_Link := Update_Link u; Update_Address := Update_Address u;
     Update_Gateway := Update_Gateway u; Update_Source := Update_Source u;
     Update_Routes := v;
     Update_Interfaces := Update_Interfaces u |}.

Definition set_Interfaces (v : gmap string Interface) (u : Update) : Update :=
  {| Update_Type := Update_Type u; Update_Change := Update_Change u;
     Update_Link := Update_Link u; Update_Address := Update_Address u;
     Update_Gateway := Update_Gateway u; Update_Source := Update_Source u;
     Update_Routes := Update_Routes u;
     Update_Interfaces := v |}.

(** ** The kernel as the engine sees it

    What the four enumeration calls of package netlink return.  Each call
    gives a result and an error; the engine drops the error and goes on with
    the result, which is empty (or nil) when the call failed. *)

Record Kernel := {
  LinkList : list (option netlink.Link);
  AddrList : netlink.Link → list netlink.Addr;
  RouteList : list netlink.Route;
  LinkByIndex : Z → option netlink.Link;
}.

(** The name of a link when both the link and its attributes are there. *)
Definition linkName (l : option netlink.Link) : option string :=
  match l with
  | Some l =>
      match netlink.Attrs l with
      | Some attrs => Some (netlink.Name attrs)
      | None => None
      end
  | None => None
  end.

Section Engine.
Context `{!net.Codec}.

(** ** The snapshot function *)

(** The body of the loop over the addresses of one link. *)
Definition genUpdate_addr (acc : list Address) (addr : netlink.Addr)
    : list Address :=
  if negb (net.IsGlobalUnicast (netlink.IP addr))
     && negb (net.IsLinkLocalUnicast (netlink.IP addr))
  then acc
  else
    let cidr := fst (net.Size (netlink.Mask addr)) in
    acc ++ [ {| Address_Address := net.IP_String (netlink.IP addr);
                Address_CIDR := cidr;
                Address_N := addr |} ].

(** The body of the loop over the links; the state is the index-to-name
    map and the interfaces collected so far. *)
Definition genUpdate_link (k : Kernel)
    (st : gmap Z string * gmap string Interface)
    (link : option netlink.Link)
    : gmap Z string * gmap string Interface :=
  match link with
  | None => st
  | Some l =>
      match netlink.Attrs l with
      | None => st
      | Some attrs =>
          let lnkIdx := <[netlink.Index attrs := netlink.Name attrs]> (fst st) in
          let addrs := AddrList k l in
          let inf :=
            {| Interface_link := Some l;
               Interface_Up :=
                 Z.land (netlink.Flags attrs) unix.IFF_UP =? unix.IFF_UP;
               Interface_Addr := fold_left genUpdate_addr addrs [] |} in
          (lnkIdx, <[netlink.Name attrs := inf]> (snd st))
      end
  end.

(** The [Route] the loop over the routes builds for a kernel row. *)
Definition genUpdate_newRoute (lnkIdx : gmap Z string) (route : netlink.Route)
    : Route :=
  let dst := match netlink.Dst route with
             | Some d => net.IPNet_String d
             | None => "default"
             end in
  let gw := if net.nonnil (netlink.Gw route)
            then net.IP_String (netlink.Gw route) else "" in
  let src := if net.nonnil (netlink.Src route)
             then net.IP_String (netlink.Src route) else "" in
  {| Route_route := route;
     Route_Destination := dst;
     Route_Gateway := gw;
     Route_Src := src;
     Route_Link := default "" (lnkIdx !! netlink.LinkIndex route) |}.

(** The body of the loop over the routes. *)
Definition genUpdate_route (lnkIdx : gmap Z string) (acc : list Route)
    (route : netlink.Route) : list Route :=
  if negb (netlink.Scope route =? netlink.SCOPE_UNIVERSE)
     && negb (netlink.Scope route =? netlink.SCOPE_LINK)
  then acc
  else if match netlink.Dst route with
          | Some dst => net.IsLinkLocalUnicast (net.IPNet_IP dst)
          | None => false
          end
  then acc
  else if negb (netlink.Table route =? 254) then acc
  else acc ++ [genUpdate_newRoute lnkIdx route].

Definition genUpdate (k : Kernel) (last : option Update) : Update :=
  let upd := set_Interfaces ∅ zero_Update in
  let '(lnkIdx, infs) :=
    fold_left (genUpdate_link k) (LinkList k) (∅, Update_Interfaces upd) in
  let upd := set_Interfaces infs upd in
  let routes := RouteList k in
  set_Routes (fold_left (genUpdate_route lnkIdx) routes (Update_Routes upd)) upd.

(** ** The update derivers: each returns the annotated update and whether
    the change is notable *)

Definition addrUpdate (k : Kernel) (u : Update) (a : netlink.AddrUpdate)
    : Update * bool :=
  let u := set_Type "address" u in
  let cidr := fst (net.Size (net.IPNet_Mask (netlink.LinkAddress a))) in
  let u := set_Address
             (Some {| Address_Address :=
                        net.IP_String (net.IPNet_IP (netlink.LinkAddress a));
                      Address_CIDR := cidr;
                      Address_N := zero_Addr |}) u in
  let u := match linkName (LinkByIndex k (netlink.AddrUpdate_LinkIndex a)) with
           | Some name => set_Link name u
           | None => u
           end in
  let u := if netlink.NewAddr a
           then set_Change ["add"] u else set_Change ["delete"] u in
  (u, true).

Definition testFlag (a b c : Z) (add delete : string) : list string :=
  if Z.land a c =? 0 then []
  else if Z.land b c =? 0 then [delete]
  else [add].

Definition linkUpdate (u : Update) (a : netlink.LinkUpdate) : Update * bool :=
  let chg := netlink.LinkUpdate_Change a in
  let flg := netlink.LinkUpdate_Flags a in
  let u := set_Type "link" u in
  let u := match linkName (netlink.LinkUpdate_Link a) with
           | Some name => set_Link name u
           | None => u
           end in
  let u := set_Change (Update_Change u ++ testFlag chg flg unix.IFF_UP "up" "down") u in
  let u := set_Change (Update_Change u ++ testFlag chg flg unix.IFF_PROMISC "promisc" "nopromisc") u in
  let u := set_Change (Update_Change u ++ testFlag chg flg unix.IFF_NOARP "noarp" "arp") u in
  let u := set_Change (Update_Change u ++ testFlag chg flg unix.IFF_BROADCAST "broadcast" "nobroadcast") u in
  let u := set_Change (Update_Change u ++ testFlag chg flg unix.IFF_LOOPBACK "loopback" "noloopback") u in
  let u := set_Change (Update_Change u ++ testFlag chg flg unix.IFF_POINTOPOINT "pointtopoint" "nopointtopoint") u in
  let u := set_Change (Update_Change u ++ testFlag chg flg unix.IFF_MULTICAST "multicast" "nomulticast") u in
  if Z.land chg unix.IFF_UP =? 0 then (u, false) else (u, true).

Definition routeUpdate (k : Kernel) (u : Update) (a : netlink.RouteUpdate)
    : Update * bool :=
  let r := netlink.RouteUpdate_Route a in
  let u := set_Type "route" u in
  let u := match netlink.Dst r with
           | Some dst =>
               let cidr := fst (net.Size (net.IPNet_Mask dst)) in
               set_Address
                 (Some {| Address_Address := net.IP_String (net.IPNet_IP dst);
                          Address_CIDR := cidr;
                          Address_N := zero_Addr |}) u
           | None => set_Type "default_route" u
           end in
  let u := if net.nonnil (netlink.Gw r)
           then set_Gateway (net.IP_String (netlink.Gw r)) u else u in
  let u := if net.nonnil (netlink.Src r)
           then set_Source (net.IP_String (netlink.Src r)) u else u in
  let u := match linkName (LinkByIndex k (netlink.ILinkIndex r)) with
           | Some name => set_Link name u
           | None => u
           end in
  let u := if netlink.RouteUpdate_Type a =? unix.RTM_NEWROUTE
           then set_Change ["add"] u
           else if netlink.RouteUpdate_Type a =? unix.RTM_DELROUTE
                then set_Change ["delete"] u else u in
  if negb (netlink.Scope r =? netlink.SCOPE_UNIVERSE)
     && negb (netlink.Scope r =? netlink.SCOPE_LINK)
  then (u, false)
  else if negb (netlink.Table r =? 254) then (u, false)
  else (u, true).

(** ** The environment marshaller *)

(** The body of the loop over the addresses of interface [n]. *)
Definition MarshalEnv_addr (n : string) (a : Address) : list string :=
  let ip := net.ParseIP (Address_Address a) in
  (if net.IsLinkLocalUnicast ip then
     if net.nonnil (net.To4 ip)
     then ["IPMON_LL_IPV4_" +:+ n +:+ "=" +:+ Address_Address a]
     else if net.nonnil (net.To16 ip)
          then ["IPMON_LL_IPV6_" +:+ n +:+ "=" +:+ Address_Address a]
          else []
   else [])
  ++
  (if negb (net.IsGlobalUnicast ip) then []
   else if net.nonnil (net.To4 ip) then
     (if 0 <? netlink.ValidLft (Address_N a)
      then ["IPMON_IPV4_TTL_" +:+ n +:+ "="
              +:+ pretty (netlink.ValidLft (Address_N a))]
      else [])
     ++ ["IPMON_IPV4_" +:+ n +:+ "=" +:+ Address_Address a;
         "IPMON_IPV4_MASK_" +:+ n +:+ "=" +:+ pretty (Address_CIDR a)]
   else if net.nonnil (net.To16 ip) then
     if net.IsPrivate ip then []
     else
       (if 0 <? netlink.ValidLft (Address_N a)
        then ["IPMON_IPV6_TTL_" +:+ n +:+ "="
                +:+ pretty (netlink.ValidLft (Address_N a))]
        else [])
       ++ ["IPMON_IPV6_" +:+ n +:+ "=" +:+ Address_Address a;
           "IPMON_IPV6_MASK_" +:+ n +:+ "=" +:+ pretty (Address_CIDR a)]
   else []).

(** The body of the loop over the interfaces. *)
Definition MarshalEnv_iface (n : string) (inf : Interface) : list string :=
  flat_map (MarshalEnv_addr n) (Interface_Addr inf)
  ++ [if Interface_Up inf
      then "IPMON_UP_" +:+ n +:+ "=1"
      else "IPMON_UP_" +:+ n +:+ "=0"].

(** [d == nil || r.route.Priority < d.route.Priority] *)
Definition MarshalEnv_better (d : option Route) (r : Route) : bool :=
  match d with
  | None => true
  | Some d =>
      netlink.Priority (Route_route r) <? netlink.Priority (Route_route d)
  end.

(** The body of the loop over the routes; the state is
    [(defRouteIPv4, defRouteIPv6)]. *)
Definition MarshalEnv_route (st : option Route * option Route) (r : Route)
    : option Route * option Route :=
  let '(defRouteIPv4, defRouteIPv6) := st in
  match netlink.Dst (Route_route r) with
  | None =>
      if netlink.Protocol (Route_route r) =? 4 then
        if MarshalEnv_better defRouteIPv4 r
        then (Some r, defRouteIPv6) else st
      else if netlink.Protocol (Route_route r) =? 6 then
        if MarshalEnv_better defRouteIPv6 r
        then (defRouteIPv4, Some r) else st
      else st
  | Some _ => st
  end.

Definition MarshalEnv_defRoutes (rs : list Route)
    : option Route * option Route :=
  fold_left MarshalEnv_route rs (None, None).

Definition MarshalEnv_defRouteIPv4 (d : option Route) : list string :=
  match d with
  | None => []
  | Some d =>
      let src := netlink.Src (Route_route d) in
      (if net.nonnil (net.To4 src)
       then ["IPMON_IPV4=" +:+ net.IP_String (net.To4 src)] else [])
      ++ ["IPMON_IPV4_IF=" +:+ Route_Link d]
      ++ (if net.nonnil (netlink.Gw (Route_route d))
          then ["IPMON_IPV4_GW=" +:+ net.IP_String (netlink.Gw (Route_route d))]
          else [])
  end.

Definition MarshalEnv_defRouteIPv6 (d : option Route) : list string :=
  match d with
  | None => []
  | Some d =>
      let src := netlink.Src (Route_route d) in
      (if net.nonnil (net.To16 src)
       then ["IPMON_IPV6=" +:+ net.IP_String (net.To16 src)] else [])
      ++ ["IPMON_IPV6_IF=" +:+ Route_Link d]
      ++ (if net.nonnil (netlink.Gw (Route_route d))
          then ["IPMON_IPV6_GW=" +:+ net.IP_String (netlink.Gw (Route_route d))]
          else [])
  end.

(** What is appended to [env] before the loop over the interfaces. *)
Definition MarshalEnv_head (u : Update) : list string :=
  ["IPMON_TYPE=" +:+ Update_Type u]
  ++ match Update_Change u with
     | c :: _ => ["IPMON_CHANGE=" +:+ c]
     | [] => []
     end
  ++ match Update_Address u with
     | Some a => ["IPMON_ADDR=" +:+ Address_Address a;
                  "IPMON_MASK=" +:+ pretty (Address_CIDR a)]
     | None => []
     end
  ++ (if bool_decide (Update_Gateway u ≠ "")
      then ["IPMON_GW=" +:+ Update_Gateway u] else [])
  ++ (if bool_decide (Update_Source u ≠ "")
      then ["IPMON_SRC=" +:+ Update_Source u] else []).

(** [env] as it stands just before [sort.Strings], the interfaces being
    visited in the order [ifs]. *)
Definition MarshalEnv_unsorted (ifs : list (string * Interface)) (u : Update)
    : list string :=
  let defs := MarshalEnv_defRoutes (Update_Routes u) in
  MarshalEnv_head u
  ++ flat_map (λ '(n, inf), MarshalEnv_iface n inf) ifs
  ++ (if bool_decide (Update_Link u ≠ "")
      then ["IPMON_LINK=" +:+ Update_Link u] else [])
  ++ MarshalEnv_defRouteIPv4 (fst defs)
  ++ MarshalEnv_defRouteIPv6 (snd defs).

(** One run of [MarshalEnv], [range u.Interfaces] yielding [ifs]. *)
Definition MarshalEnv_ranging (ifs : list (string * Interface)) (u : Update)
    : list string :=
  sort.Strings (MarshalEnv_unsorted ifs u).

(** The orders in which ranging over a map may yield its entries: each
    entry once. *)
Definition range_of {V} (m : gmap string V) (ifs : list (string * V)) : Prop :=
  ifs ≡ₚ map_to_list m.

(** [MarshalEnv] with the map ranged over in the order of [map_to_list]. *)
Definition MarshalEnv (u : Update) : list string :=
  MarshalEnv_ranging (map_to_list (Update_Interfaces u)) u.

(** ** The event loop *)

(** What the four subscription calls return: [None] is a nil error. *)
Record Subscriptions := {
  NeighSubscribeWithOptions : option string;
  AddrSubscribe : option string;
  RouteSubscribe : option string;
  LinkSubscribe : option string;
}.

(** What happens on the sources while [Monitor] runs, in the order the
    loop gets to see it.  On a channel, [Some] is a record and [None] is
    the channel being closed.  [CtxDone] is the context being cancelled (a
    nil or background context never is), [TmrCh] a tick of the ticker. *)
Inductive Event :=
| CtxDone
| AddrUpd (a : option netlink.AddrUpdate)
| LinkUpd (l : option netlink.LinkUpdate)
| RouteUpd (r : option netlink.RouteUpdate)
| NeighUpd (n : option netlink.NeighUpdate)
| TmrCh.

(** [Monitor] either has returned an error value (nil is [None]), or is
    still waiting in its [select], or has panicked. *)
Inductive Status :=
| Waiting
| Returned (err : option string)
| Panicked.

(** [fn(u)] when [notable]: the calls of the handler are recorded in
    order. *)
Definition call_if (notable : bool) (calls : list Update) (u : Update)
    : list Update :=
  if notable then calls ++ [u] else calls.

(** The [for { select { ... } }] loop.  Each event comes with the kernel
    state the engine reads while it handles the event.  The [select] has
    no case for [neighUpd], so nothing that happens on that channel wakes
    the loop; the ticker exists only when [interval > 0].  Resetting the
    ticker changes when later ticks come, which is the event list's
    business; it is reset to the period it was made with, which is
    positive, so [Reset] does not panic. *)
Fixpoint Monitor_loop (interval : Z) (calls : list Update)
    (lastUpdate : Update) (evs : list (Kernel * Event))
    : Status * list Update :=
  match evs with
  | [] => (Waiting, calls)
  | (k, ev) :: evs =>
      match ev with
      | CtxDone => (Returned None, calls)
      | AddrUpd None => (Returned None, calls)
      | AddrUpd (Some a) =>
          let '(u, notable) := addrUpdate k (genUpdate k (Some lastUpdate)) a in
          Monitor_loop interval (call_if notable calls u) u evs
      | LinkUpd None => (Returned None, calls)
      | LinkUpd (Some l) =>
          let '(u, notable) := linkUpdate (genUpdate k (Some lastUpdate)) l in
          Monitor_loop interval (call_if notable calls u) u evs
      | RouteUpd None => (Returned None, calls)
      | RouteUpd (Some r) =>
          let '(u, notable) := routeUpdate k (genUpdate k (Some lastUpdate)) r in
          Monitor_loop interval (call_if notable calls u) u evs
      | NeighUpd _ => Monitor_loop interval calls lastUpdate evs
      | TmrCh =>
          if 0 <? interval then
            let u := set_Type "interval" (genUpdate k None) in
            Monitor_loop interval (calls ++ [u]) lastUpdate evs
          else Monitor_loop interval calls lastUpdate evs
      end
  end.

(** [Monitor(ctx, interval, fn)]: the status reached after the events
    [evs], and the updates passed to [fn] so far.  [k0] is the kernel state
    at the initial snapshot.  The ticker is made after the initial update
    has been handed over, with the period
    [time.Duration(interval) * time.Second]; for a large [interval] the
    product wraps around, and when it is not positive [NewTicker]
    panics. *)
Definition Monitor (subs : Subscriptions) (k0 : Kernel) (interval : Z)
    (evs : list (Kernel * Event)) : Status * list Update :=
  match NeighSubscribeWithOptions subs with
  | Some err => (Returned (Some err), [])
  | None =>
  match AddrSubscribe subs with
  | Some err => (Returned (Some err), [])
  | None =>
  match RouteSubscribe subs with
  | Some err => (Returned (Some err), [])
  | None =>
  match LinkSubscribe subs with
  | Some err => (Returned (Some err), [])
  | None =>
      let lastUpdate := set_Type "init" (genUpdate k0 None) in
      if 0 <? interval then
        match time.NewTicker
                (time.mul (time.Duration interval) time.Second) with
        | None => (Panicked, [lastUpdate])
        | Some _ => Monitor_loop interval [lastUpdate] lastUpdate evs
        end
      else Monitor_loop interval [lastUpdate] lastUpdate evs
  end end end end.

End Engine.

(** ** Vocabulary of the properties *)

(** Whether the character [c] occurs in [s]. *)
Fixpoint occurs (c : Ascii.ascii) (s : string) : bool :=
  match s with
  | EmptyString => false
  | String c' s' => Ascii.eqb c c' || occurs c s'
  end.

(** The address classes the snapshot keeps. *)
Definition keptAddr (ip : net.IP) : Prop :=
  net.IsLinkLocalUnicast ip = true ∨ net.IsGlobalUnicast ip = true.

(** The kernel rows the snapshot keeps. *)
Definition keptRoute (route : netlink.Route) : Prop :=
  netlink.Table route = 254
  ∧ (netlink.Scope route = netlink.SCOPE_UNIVERSE
     ∨ netlink.Scope route = netlink.SCOPE_LINK)
  ∧ ∀ dst, netlink.Dst route = Some dst →
           net.IsLinkLocalUnicast (net.IPNet_IP dst) = false.

(** A route is a candidate default route of family [p] (4 or 6, as the
    marshaller reads it from the route's protocol field) when it has no
    destination prefix. *)
Definition candidate (p : Z) (r : Route) : Prop :=
  netlink.Dst (Route_route r) = None ∧ netlink.Protocol (Route_route r) = p.

(** [r], at position [i] of [rs], is the candidate of family [p] with the
    lowest priority value, the first such in the order of [rs]. *)
Definition lowest_first (p : Z) (rs : list Route) (i : nat) (r : Route) : Prop :=
  rs !! i = Some r
  ∧ candidate p r
  ∧ ∀ (j : nat) (r' : Route),
      rs !! j = Some r' → candidate p r' →
      netlink.Priority (Route_route r) < netlink.Priority (Route_route r')
      ∨ (netlink.Priority (Route_route r) = netlink.Priority (Route_route r')
         ∧ (i ≤ j)%nat).

(** [d] is the default route of family [p] among [rs]: nil when [rs] has no
    candidate, else the lowest, first candidate. *)
Definition selected (p : Z) (rs : list Route) (d : option Route) : Prop :=
  match d with
  | None => ∀ r, r ∈ rs → ¬ candidate p r
  | Some r => ∃ i, lowest_first p rs i r
  end.

(** The events on which the loop returns: the context being cancelled and
    the closing of a channel the [select] receives from. *)
Definition closing (ev : Event) : bool :=
  match ev with
  | CtxDone | AddrUpd None | LinkUpd None | RouteUpd None => true
  | _ => false
  end.

(** One of the four category channels being closed. *)
Definition channel_closed (ev : Event) : bool :=
  match ev with
  | AddrUpd None | LinkUpd None | RouteUpd None | NeighUpd None => true
  | _ => false
  end.

(** All four subscriptions were established. *)
Definition subscribed (subs : Subscriptions) : Prop :=
  NeighSubscribeWithOptions subs = None ∧ AddrSubscribe subs = None
  ∧ RouteSubscribe subs = None ∧ LinkSubscribe subs = None.

(** The intervals for which making the ticker panics: the positive ones
    whose period in nanoseconds, as an [int64], is not positive. *)
Definition ticker_panics (interval : Z) : bool :=
  (0 <? interval)
  && (time.mul (time.Duration interval) time.Second <=? 0).

(** ** Readings of the snapshot loops

    What the loops of [genUpdate] amount to, written with [filter] and
    [map]; the properties below relate the loops to them. *)

(** The test on an address of a link. *)
Definition keepsAddr (addr : netlink.Addr) : bool :=
  net.IsGlobalUnicast (netlink.IP addr)
  || net.IsLinkLocalUnicast (netlink.IP addr).

(** The three tests on a kernel row. *)
Definition keepsRoute (route : netlink.Route) : bool :=
  ((netlink.Scope route =? netlink.SCOPE_UNIVERSE)
   || (netlink.Scope route =? netlink.SCOPE_LINK))
  && negb (match netlink.Dst route with
           | Some dst => net.IsLinkLocalUnicast (net.IPNet_IP dst)
           | None => false
           end)
  && (netlink.Table route =? 254).

(** A link of the list that has attributes. *)
Definition listed (k : Kernel) (l : netlink.Link) (attrs : netlink.LinkAttrs)
    : Prop :=
  Some l ∈ LinkList k ∧ netlink.Attrs l = Some attrs.

Section Readings.
Context `{!net.Codec}.

(** The [Address] built for a kept address. *)
Definition newAddress (addr : netlink.Addr) : Address :=
  {| Address_Address := net.IP_String (netlink.IP addr);
     Address_CIDR := fst (net.Size (netlink.Mask addr));
     Address_N := addr |}.

(** The [Interface] built for a link: its up flag and its kept addresses
    in the order of the kernel's list. *)
Definition newInterface (k : Kernel) (l : netlink.Link)
    (attrs : netlink.LinkAttrs) : Interface :=
  {| Interface_link := Some l;
     Interface_Up := Z.testbit (netlink.Flags attrs) 0;
     Interface_Addr := map newAddress (List.filter keepsAddr (AddrList k l)) |}.

End Readings.

(** ** Readings of the derivers *)

(** The seven flags [linkUpdate] reports, in its order, each with the tag
    for the flag being set and the tag for it being clear. *)
Definition trackedFlags : list (Z * string * string) :=
  [(unix.IFF_UP, "up", "down");
   (unix.IFF_PROMISC, "promisc", "nopromisc");
   (unix.IFF_NOARP, "noarp", "arp");
   (unix.IFF_BROADCAST, "broadcast", "nobroadcast");
   (unix.IFF_LOOPBACK, "loopback", "noloopback");
   (unix.IFF_POINTOPOINT, "pointtopoint", "nopointtopoint");
   (unix.IFF_MULTICAST, "multicast", "nomulticast")].

(** ** Readings of the route loop of the marshaller *)

(** The routes the marshaller looks at: no destination prefix and protocol
    field 4 or 6. *)
Definition isCandidate (r : Route) : bool :=
  bool_decide (netlink.Dst (Route_route r) = None)
  && ((netlink.Protocol (Route_route r) =? 4)
      || (netlink.Protocol (Route_route r) =? 6)).

(** The shape of an entry: it begins [IPMON_] and has an equals sign. *)
Definition isEntry (s : string) : Prop :=
  String.prefix "IPMON_" s = true ∧ occurs "="%char s = true.

(** ** Readings of the event loop *)

(** The events before the one on which the loop returns. *)
Fixpoint until_return (evs : list (Kernel * Event)) : list (Kernel * Event) :=
  match evs with
  | [] => []
  | e :: evs => if closing (snd e) then [] else e :: until_return evs
  end.

Section Reaction.
Context `{!net.Codec}.

(** What one event, taken alone, hands to the handler: the update derived
    from a snapshot of the kernel state of the event, when it is notable. *)
Definition react (interval : Z) (e : Kernel * Event) : option Update :=
  let k := fst e in
  match snd e with
  | AddrUpd (Some a) =>
      let '(u, notable) := addrUpdate k (genUpdate k None) a in
      if notable then Some u else None
  | LinkUpd (Some l) =>
      let '(u, notable) := linkUpdate (genUpdate k None) l in
      if notable then Some u else None
  | RouteUpd (Some r) =>
      let '(u, notable) := routeUpdate k (genUpdate k None) r in
      if notable then Some u else None
  | TmrCh =>
      if 0 <? interval then Some (set_Type "interval" (genUpdate k None))
      else None
  | _ => None
  end.

End Reaction.

(** ** Package strings *)

Module strings.

Definition HasPrefix (s prefix : string) : bool := String.prefix prefix s.

End strings.

(** ** The daemon (cmd/ipmond, package main)

    The daemon tells its supervisor how it is doing over the datagram
    socket named by [NOTIFY_SOCKET], and runs a command for each update
    the engine hands to it.  What it does to the outside is kept as a
    trace of effects; what the outside answers is given by the host. *)

Module ipmond.

(** A connection is named by the number of the dial that opened it. *)
Inductive Effect :=
| Dial (name : string) (ok : bool)
| ConnWrite (conn : nat) (data : string) (ok : bool)
| ConnClose (conn : nat)
| Command (name : string) (args env : list string) (stdin : option Update).

(** The host: what [os.Getenv] returns for [NOTIFY_SOCKET] (empty when
    unset), what [os.Environ] returns, and whether the n-th [net.DialUnix]
    and the n-th [Write] of the process succeed. *)
Record Host := {
  NOTIFY_SOCKET : string;
  Environ : list string;
  dials : nat → bool;
  writes : nat → bool;
}.

(** The package variable [sdConn] (nil is [None]) and the effects so far. *)
Record State := {
  sdConn : option nat;
  trace : list Effect;
}.

Definition start : State := {| sdConn := None; trace := [] |}.

Definition isDial (e : Effect) : bool :=
  match e with Dial _ _ => true | _ => false end.

Definition isWrite (e : Effect) : bool :=
  match e with ConnWrite _ _ _ => true | _ => false end.

Definition isClose (e : Effect) : bool :=
  match e with ConnClose _ => true | _ => false end.

Definition isCommand (e : Effect) : bool :=
  match e with Command _ _ _ _ => true | _ => false end.

Definition emit (e : Effect) (st : State) : State :=
  {| sdConn := sdConn st; trace := trace st ++ [e] |}.

Definition notifyOpen (h : Host) (st : State) : bool * State :=
  match sdConn st with
  | Some _ => (true, st)
  | None =>
      let sockName := NOTIFY_SOCKET h in
      if String.eqb sockName "" then (false, st)
      else
        let n := length (List.filter isDial (trace st)) in
        if dials h n
        then (true, {| sdConn := Some n;
                       trace := trace st ++ [Dial sockName true] |})
        else (false, emit (Dial sockName false) st)
  end.

(** [sdConn.Write(data)]: whether it went without error.  On a nil
    connection [Write] returns an error and does nothing. *)
Definition connWrite (h : Host) (data : string) (st : State) : bool * State :=
  match sdConn st with
  | Some c =>
      let ok := writes h (length (List.filter isWrite (trace st))) in
      (ok, emit (ConnWrite c data ok) st)
  | None => (false, st)
  end.

(** [sdConn.Close()], which on a nil connection does nothing but return
    an error. *)
Definition connClose (st : State) : State :=
  match sdConn st with
  | Some c => emit (ConnClose c) st
  | None => st
  end.

Definition LF : string := String "010"%char "".

Definition sdnotify (h : Host) (state : string) (st : State) : State :=
  let '(opened, st) := notifyOpen h st in
  if opened then
    let data := state +:+ LF in
    let '(ok, st) := connWrite h data st in
    if ok then st
    else
      let st := connClose st in
      let st := {| sdConn := None; trace := trace st |} in
      let '(opened, st) := notifyOpen h st in
      if opened then snd (connWrite h data st) else st
  else st.

Definition Ready (h : Host) : State → State := sdnotify h "READY=1".
Definition Reloading (h : Host) : State → State := sdnotify h "RELOADING=1".
Definition Stopping (h : Host) : State → State := sdnotify h "STOPPING=1".
Definition Watchdog (h : Host) : State → State := sdnotify h "WATCHDOG=1".
Definition Status (h : Host) (str : string) : State → State :=
  sdnotify h ("STATUS=" +:+ str).

(** The environment of the command: the loop over [os.Environ()] and the
    [append] of the entries of the update. *)
Definition cmdEnv (environ newEnv : list string) : list string :=
  fold_left
    (λ env v, if strings.HasPrefix v "NOTIFY_SOCKET=" then env else env ++ [v])
    environ []
  ++ newEnv.

(** The flags and arguments of the command line; the debug flag only turns
    logging on. *)
Record Flags := {
  flgJson : bool;
  flgInterval : Z;
  argv : list string;
}.

Definition cmdName (f : Flags) : string :=
  match argv f with c :: _ => c | [] => "" end.

Definition args (f : Flags) : list string :=
  match argv f with _ :: a => a | [] => [] end.

Section Handler.
Context `{!net.Codec}.

(** The command of one update: its name, arguments and environment, and
    what is written to its standard input: the update as JSON, or
    nothing. *)
Definition command (h : Host) (f : Flags) (upd : Update) : Effect :=
  Command (cmdName f) (args f) (cmdEnv (Environ h) (MarshalEnv upd))
    (if flgJson f then Some upd else None).

(** The commands the handler runs for a list of updates. *)
Definition commands (h : Host) (f : Flags) (calls : list Update)
    : list Effect :=
  if String.eqb (cmdName f) "" then [] else map (command h f) calls.

(** The function [main] hands to [Monitor], with the captured [rdy] as
    state.  Starting the command, writing to it and waiting for it are
    one effect; their errors are logged and change nothing else. *)
Definition handler (h : Host) (f : Flags) (s : bool * State) (upd : Update)
    : bool * State :=
  let '(rdy, st) := s in
  let st := if rdy then st else Ready h (Status h "Running" st) in
  let st := if String.eqb (cmdName f) "" then st
            else emit (command h f upd) st in
  (true, st).

(** [main]: the handler runs inside [Monitor], once for each of its calls
    and in their order; the error of [Monitor] is logged, and a panic of
    [Monitor] ends the daemon with nothing done after the calls made. *)
Definition main (h : Host) (f : Flags) (subs : Subscriptions) (k0 : Kernel)
    (evs : list (Kernel * Event)) : State :=
  let st := Status h "Starting" start in
  snd (fold_left (handler h f)
         (snd (Monitor subs k0 (flgInterval f) evs)) (false, st)).

End Handler.

(** *** Readings of the trace *)

(** The socket as the trace leaves it: the open connection, if any, and
    the number of dials.  [None] when the trace misuses the socket: a dial
    while a connection is open, or a write or close on a connection that
    is not the open one. *)
Definition replay_step (s : option (option nat * nat)) (e : Effect)
    : option (option nat * nat) :=
  match s with
  | None => None
  | Some (conn, n) =>
      match e with
      | Dial _ ok =>
          match conn with
          | None => Some (if ok then Some n else None, S n)
          | Some _ => None
          end
      | ConnWrite c _ _ =>
          if bool_decide (conn = Some c) then Some (conn, n) else None
      | ConnClose c =>
          if bool_decide (conn = Some c) then Some (None, n) else None
      | Command _ _ _ _ => Some (conn, n)
      end
  end.

Definition replay (tr : list Effect) : option (option nat * nat) :=
  fold_left replay_step tr (Some (None, 0%nat)).

(** The socket is used in order, and [sdConn] is the connection the trace
    leaves open. *)
Definition tidy (st : State) : Prop :=
  replay (trace st)
  = Some (sdConn st, length (List.filter isDial (trace st))).

(** What a notification may put on the trace. *)
Definition notifies (h : Host) (state : string) (e : Effect) : Prop :=
  match e with
  | Dial name _ => name = NOTIFY_SOCKET h ∧ name ≠ ""
  | ConnWrite _ data _ => data = state +:+ LF
  | ConnClose _ => True
  | Command _ _ _ _ => False
  end.

End ipmond.

(** ** Readings of snapshot and marshaller together *)

(** A kernel row that can become the default route of family [p]: a row
    the snapshot keeps, without destination prefix, with protocol field
    [p]. *)
Definition mainDefault (k : Kernel) (p : Z) (row : netlink.Route) : Prop :=
  row ∈ RouteList k ∧ keepsRoute row = true
  ∧ netlink.Dst row = None ∧ netlink.Protocol row = p.

(** ** Sample data

    A codec that knows dotted quads and two IPv6 literals, and a host with a
    loopback and an ethernet link. *)

Module sample.

Definition ula : list Z := [0xfd; 0; 0; 0; 0; 0; 0; 0; 0; 0; 0; 0; 0; 0; 0; 1].
Definition ll6 : list Z := [0xfe; 0x80; 0; 0; 0; 0; 0; 0; 0; 0; 0; 0; 0; 0; 0; 1].

Definition IP_String (ip : net.IP) : string :=
  match net.To4 ip with
  | Some b =>
      pretty (net.at_ b 0) +:+ "." +:+ pretty (net.at_ b 1) +:+ "."
      +:+ pretty (net.at_ b 2) +:+ "." +:+ pretty (net.at_ b 3)
  | None =>
      if bool_decide (ip = Some ula) then "fd00::1"
      else if bool_decide (ip = Some ll6) then "fe80::1"
      else match ip with
           | Some b => "?" +:+ net.hexString b
           | None => "<nil>"
           end
  end.

Definition ParseIP (s : string) : net.IP :=
  if bool_decide (s = "fd00::1") then Some ula
  else if bool_decide (s = "fe80::1") then Some ll6
  else if bool_decide (s = "192.168.1.10") then net.IPv4 192 168 1 10
  else None.

Definition codec : net.Codec :=
  {| net.IP_String := IP_String; net.ParseIP := ParseIP |}.

Definition lo : netlink.Link :=
  {| netlink.Attrs :=
       Some {| netlink.Index := 1; netlink.Name := "lo"; netlink.Flags := 0x5 |} |}.

Definition eth0 : netlink.Link :=
  {| netlink.Attrs :=
       Some {| netlink.Index := 2; netlink.Name := "eth0"; netlink.Flags := 0x13 |} |}.

Definition addr (ip mask : list Z) (lft : Z) : netlink.Addr :=
  {| netlink.IP := Some ip; netlink.Mask := Some mask; netlink.ValidLft := lft |}.

Definition addrs_of (l : netlink.Link) : list netlink.Addr :=
  match linkName (Some l) with
  | Some "lo" => [addr [127; 0; 0; 1] [255; 0; 0; 0] 0]
  | Some "eth0" =>
      [addr [192; 168; 1; 10] [255; 255; 255; 0] 3600;
       addr ll6 (replicate 8 255 ++ replicate 8 0) 0;
       addr ula (replicate 8 255 ++ replicate 8 0) 0;
       addr [224; 0; 0; 1] [255; 255; 255; 255] 0]
  | _ => []
  end.

Definition row (table scope prio : Z) (dst : option net.IPNet) (gw : net.IP)
    : netlink.Route :=
  {| netlink.LinkIndex := 2; netlink.ILinkIndex := 0; netlink.Scope := scope;
     netlink.Dst := dst; netlink.Src := None; netlink.Gw := gw;
     netlink.Protocol := 4; netlink.Priority := prio;
     netlink.Table := table |}.

Definition lan : net.IPNet :=
  {| net.IPNet_IP := Some [192; 168; 1; 0];
     net.IPNet_Mask := Some [255; 255; 255; 0] |}.

Definition kernel : Kernel :=
  {| LinkList := [Some lo; None; Some eth0];
     AddrList := addrs_of;
     RouteList :=
       [row 254 netlink.SCOPE_UNIVERSE 100 None (Some [192; 168; 1; 1]);
        row 254 netlink.SCOPE_UNIVERSE 50 None (Some [192; 168; 1; 254]);
        row 254 netlink.SCOPE_LINK 0 (Some lan) None;
        row 255 0xfe 0 (Some lan) None];
     LinkByIndex := λ i, if i =? 1 then Some lo
                         else if i =? 2 then Some eth0 else None |}.

(** The snapshot of this host, as [genUpdate] gives it. *)
Definition address (a : netlink.Addr) (text : string) (cidr : Z) : Address :=
  {| Address_N := a; Address_Address := text; Address_CIDR := cidr |}.

Definition eth0_v4 : Address :=
  address (addr [192; 168; 1; 10] [255; 255; 255; 0] 3600) "192.168.1.10" 24.
Definition eth0_ll6 : Address :=
  address (addr ll6 (replicate 8 255 ++ replicate 8 0) 0) "fe80::1" 64.
Definition eth0_ula : Address :=
  address (addr ula (replicate 8 255 ++ replicate 8 0) 0) "fd00::1" 64.

Definition lo_inf : Interface :=
  {| Interface_Up := true; Interface_link := Some lo; Interface_Addr := [] |}.
Definition eth0_inf : Interface :=
  {| Interface_Up := true; Interface_link := Some eth0;
     Interface_Addr := [eth0_v4; eth0_ll6; eth0_ula] |}.

Definition default_via (prio : Z) (gw : list Z) (text : string) : Route :=
  {| Route_Destination := "default"; Route_Gateway := text;
     Route_Link := "eth0"; Route_Src := "";
     Route_route := row 254 netlink.SCOPE_UNIVERSE prio None (Some gw) |}.

Definition default_100 : Route := default_via 100 [192; 168; 1; 1] "192.168.1.1".
Definition default_50 : Route := default_via 50 [192; 168; 1; 254] "192.168.1.254".

(** A link report in which only the promiscuous flag changed, an address
    report, and a stretch of events on none of which the loop returns. *)
Definition promisc_on : netlink.LinkUpdate :=
  {| netlink.LinkUpdate_Flags := 0x1103;
     netlink.LinkUpdate_Change := unix.IFF_PROMISC;
     netlink.LinkUpdate_Link := Some eth0 |}.

Definition addr_added : netlink.AddrUpdate :=
  {| netlink.LinkAddress :=
       {| net.IPNet_IP := Some [192; 168; 1; 10];
          net.IPNet_Mask := Some [255; 255; 255; 0] |};
     netlink.AddrUpdate_LinkIndex := 2;
     netlink.NewAddr := true |}.

Definition quiet : list (Kernel * Event) :=
  [(kernel, LinkUpd (Some promisc_on));
   (kernel, NeighUpd None);
   (kernel, TmrCh);
   (kernel, AddrUpd (Some addr_added))].

Definition subs_ok : Subscriptions :=
  {| NeighSubscribeWithOptions := None; AddrSubscribe := None;
     RouteSubscribe := None; LinkSubscribe := None |}.

Definition subs_route_fails : Subscriptions :=
  {| NeighSubscribeWithOptions := None; AddrSubscribe := None;
     RouteSubscribe := Some "operation not permitted";
     LinkSubscribe := None |}.

(** A link report in which the link came up, an address whose text is no
    address, and a supervisor whose socket always answers. *)
Definition link_up : netlink.LinkUpdate :=
  {| netlink.LinkUpdate_Flags := 0x11043;
     netlink.LinkUpdate_Change := unix.IFF_UP;
     netlink.LinkUpdate_Link := Some eth0 |}.

Definition bogus : Address :=
  address (addr [1; 2; 3] [255] 0) "bogus" 8.



Definition supervisor : ipmond.Host :=
  {| ipmond.NOTIFY_SOCKET := "/run/systemd/notify";
     ipmond.Environ := ["PATH=/usr/bin"; "NOTIFY_SOCKET=/run/systemd/notify"];
     ipmond.dials := λ _, true;
     ipmond.writes := λ _, true |}.

Definition flags : ipmond.Flags :=
  {| ipmond.flgJson := false; ipmond.flgInterval := 30;
     ipmond.argv := ["/usr/local/bin/on-change"; "--quiet"] |}.

End sample.

(** * Properties *)

(** ** The update derivers *)

Section Derivers.
Context `{!net.Codec}.

Lemma land_IFF_UP_testbit (x : Z) :
  (Z.land x unix.IFF_UP =? 0) = negb (Z.testbit x 0).
Proof.
  unfold unix.IFF_UP. change 1 with (Z.ones 1).
  rewrite Z.land_ones by lia. change (2 ^ 1) with 2.
  rewrite Z.bit0_odd, Zmod_odd.
  destruct (Z.odd x); reflexivity.
Qed.

Lemma linkUpdate_notable (u : Update) (a : netlink.LinkUpdate) :
  snd (linkUpdate u a) = Z.testbit (netlink.LinkUpdate_Change a) 0.
Proof.
  unfold linkUpdate. rewrite land_IFF_UP_testbit.
  destruct (Z.testbit (netlink.LinkUpdate_Change a) 0); reflexivity.
Qed.

(** C2. The link handler reports a change as notable exactly when bit 0
    (the administrative up/down flag, IFF_UP) is among the changed bits of
    the record.  A record whose only changed bit is the promiscuous flag is
    not notable; a record whose changed bits include up/down is notable
    whatever other bits changed, whatever the flags, the link and the
    update are. *)
Theorem linkUpdate_notable_iff_up_changed :
  (∀ (u : Update) (a : netlink.LinkUpdate),
      snd (linkUpdate u a) = true
      ↔ Z.testbit (netlink.LinkUpdate_Change a) 0 = true)
  ∧ (∀ (u : Update) (flags : Z) (link : option netlink.Link),
        snd (linkUpdate u
               {| netlink.LinkUpdate_Flags := flags;
                  netlink.LinkUpdate_Change := unix.IFF_PROMISC;
                  netlink.LinkUpdate_Link := link |}) = false)
  ∧ (∀ (u : Update) (flags others : Z) (link : option netlink.Link),
        snd (linkUpdate u
               {| netlink.LinkUpdate_Flags := flags;
                  netlink.LinkUpdate_Change := Z.lor unix.IFF_UP others;
                  netlink.LinkUpdate_Link := link |}) = true).
Proof.
  split; [|split].
  - intros u a. by rewrite linkUpdate_notable.
  - intros u flags link. by rewrite linkUpdate_notable.
  - intros u flags others link. rewrite linkUpdate_notable.
    cbn [netlink.LinkUpdate_Change]. by rewrite Z.lor_spec.
Qed.

(** C3. The route handler reports a change as notable exactly when the
    scope of the record is universe (0) or link (253) and its table is the
    main table, 254; every other record is suppressed. *)
Theorem routeUpdate_notable_iff_scope_and_main_table
    (k : Kernel) (u : Update) (a : netlink.RouteUpdate) :
  let r := netlink.RouteUpdate_Route a in
  (snd (routeUpdate k u a) = true
   ↔ (netlink.Scope r = 0 ∨ netlink.Scope r = 253) ∧ netlink.Table r = 254)
  ∧ (snd (routeUpdate k u a) = false
     ↔ ¬ ((netlink.Scope r = 0 ∨ netlink.Scope r = 253)
          ∧ netlink.Table r = 254)).
Proof.
  intros r. unfold routeUpdate. fold r.
  unfold netlink.SCOPE_UNIVERSE, netlink.SCOPE_LINK.
  destruct (Z.eqb_spec (netlink.Scope r) 0) as [H0|H0];
    destruct (Z.eqb_spec (netlink.Scope r) 253) as [H1|H1];
    destruct (Z.eqb_spec (netlink.Table r) 254) as [H2|H2];
    simpl; split; split; intros; try done; try tauto; try lia.
Qed.

End Derivers.

(** ** Address classes of package net *)

Module net_facts.
Import net.

(** Splits a byte list into its cases of length 0 to 16 and longer. *)
Ltac bytes_cases b :=
  do 17 (try (destruct b as [|? b])).

Ltac bool_hyps :=
  repeat match goal with
    | H : _ && _ = true |- _ => apply andb_prop in H; destruct H
    | H : bool_decide _ = true |- _ => apply bool_decide_eq_true in H
    | H : (_ =? _) = true |- _ => apply Z.eqb_eq in H
    end.

Lemma Equal_IPv4zero (ip : IP) :
  Equal ip IPv4zero = true → To4 ip = Some [0; 0; 0; 0].
Proof.
  destruct ip as [b|]; [|discriminate].
  bytes_cases b; try discriminate; cbn; unfold bytesEqual; intros H;
    bool_hyps; simplify_eq; reflexivity.
Qed.

Lemma Equal_IPv6unspecified (ip : IP) :
  Equal ip IPv6unspecified = true → bytes ip = replicate 16 0.
Proof.
  destruct ip as [b|]; [|discriminate].
  bytes_cases b; try discriminate; cbn; unfold bytesEqual; intros H;
    bool_hyps; simplify_eq; reflexivity.
Qed.

Lemma Equal_IPv6loopback (ip : IP) :
  Equal ip IPv6loopback = true → bytes ip = replicate 15 0 ++ [1].
Proof.
  destruct ip as [b|]; [|discriminate].
  bytes_cases b; try discriminate; cbn; unfold bytesEqual; intros H;
    bool_hyps; simplify_eq; reflexivity.
Qed.

Lemma To4_None_len16 (ip : IP) :
  To4 ip = None → len ip = IPv6len → To16 ip = ip ∧ nonnil ip = true.
Proof.
  intros _ Hlen. unfold To16. rewrite Hlen. cbn.
  split; [done|]. destruct ip; [done|discriminate].
Qed.

(** A link-local unicast address is not a loopback, multicast or
    unspecified address. *)
Lemma IsLinkLocalUnicast_excludes (ip : IP) :
  IsLinkLocalUnicast ip = true →
  IsLoopback ip = false ∧ IsMulticast ip = false ∧ IsUnspecified ip = false.
Proof.
  unfold IsLinkLocalUnicast, IsLoopback, IsMulticast, IsUnspecified.
  intros H.
  assert (Hz : Equal ip IPv4zero = false).
  { destruct (Equal ip IPv4zero) eqn:E; [|done].
    apply Equal_IPv4zero in E. rewrite E in H. discriminate. }
  assert (Hu : Equal ip IPv6unspecified = false).
  { destruct (Equal ip IPv6unspecified) eqn:E; [|done].
    apply Equal_IPv6unspecified in E.
    unfold To4, len in H. rewrite E in H. discriminate. }
  rewrite Hz, Hu.
  destruct (To4 ip) as [ip4|] eqn:E4.
  - bool_hyps. rewrite H. done.
  - bool_hyps. rewrite H1. split; [|by rewrite andb_false_r].
    destruct (Equal ip IPv6loopback) eqn:E; [|done].
    apply Equal_IPv6loopback in E. rewrite E in H1. discriminate.
Qed.

(** A global unicast address is not a loopback, multicast, unspecified or
    link-local address. *)
Lemma IsGlobalUnicast_excludes (ip : IP) :
  IsGlobalUnicast ip = true →
  IsLoopback ip = false ∧ IsMulticast ip = false ∧ IsUnspecified ip = false
  ∧ IsLinkLocalUnicast ip = false.
Proof.
  unfold IsGlobalUnicast. intros H. bool_hyps.
  repeat match goal with
    | H : negb _ = true |- _ => apply negb_true_iff in H
    end.
  done.
Qed.

(** A unique-local IPv6 address (fc00::/7) is not link-local. *)
Lemma IsPrivate_v6_not_link_local (ip : IP) :
  To4 ip = None → IsPrivate ip = true → IsLinkLocalUnicast ip = false.
Proof.
  unfold IsPrivate, IsLinkLocalUnicast. intros ->. intros H. bool_hyps.
  destruct (Z.eqb_spec (at_ (bytes ip) 0) 0xfe) as [E|]; [|by rewrite andb_false_r].
  rewrite E in H0. discriminate.
Qed.

End net_facts.

(** ** The snapshot function *)

Section Snapshot.
Context `{!net.Codec}.

Lemma occurs_app (c : Ascii.ascii) (s t : string) :
  occurs c (s +:+ t) = occurs c s || occurs c t.
Proof.
  induction s as [|c' s IH]; [done|].
  change (String c' s +:+ t) with (String c' (s +:+ t)).
  cbn [occurs]. rewrite IH. by rewrite orb_assoc.
Qed.

(** [IPNet.String] gives either the text of nil or a text with a slash. *)
Lemma IPNet_String_shape (n : net.IPNet) :
  net.IPNet_String n = "<nil>" ∨ occurs "/"%char (net.IPNet_String n) = true.
Proof.
  unfold net.IPNet_String.
  destruct (net.networkNumberAndMask n) as [nn m].
  destruct (negb (net.nonnil nn) || negb (net.nonnil m)); [by left|].
  right.
  destruct (net.simpleMaskLength m =? -1);
    rewrite !occurs_app; cbn; by rewrite orb_true_r.
Qed.

Lemma IPNet_String_not_default (n : net.IPNet) :
  net.IPNet_String n ≠ "default".
Proof.
  intros E. destruct (IPNet_String_shape n) as [Hs|Hs]; rewrite E in Hs;
    discriminate.
Qed.

Lemma genUpdate_Interfaces (k : Kernel) (last : option Update) :
  Update_Interfaces (genUpdate k last)
  = snd (fold_left (genUpdate_link k) (LinkList k) (∅, ∅)).
Proof.
  unfold genUpdate. cbn.
  by destruct (fold_left (genUpdate_link k) (LinkList k) (∅, ∅)).
Qed.

Lemma genUpdate_Routes (k : Kernel) (last : option Update) :
  Update_Routes (genUpdate k last)
  = fold_left
      (genUpdate_route (fst (fold_left (genUpdate_link k) (LinkList k) (∅, ∅))))
      (RouteList k) [].
Proof.
  unfold genUpdate. cbn.
  by destruct (fold_left (genUpdate_link k) (LinkList k) (∅, ∅)).
Qed.

Lemma genUpdate_addr_kept (addrs : list netlink.Addr) (acc : list Address) :
  Forall (λ a, keptAddr (netlink.IP (Address_N a))) acc →
  Forall (λ a, keptAddr (netlink.IP (Address_N a)))
         (fold_left genUpdate_addr addrs acc).
Proof.
  revert acc. induction addrs as [|addr addrs IH]; intros acc Hacc; [done|].
  cbn. apply IH. unfold genUpdate_addr.
  destruct (net.IsGlobalUnicast (netlink.IP addr)) eqn:Eg;
    destruct (net.IsLinkLocalUnicast (netlink.IP addr)) eqn:El; cbn;
    try done;
    apply Forall_app; (split; [done|]); apply Forall_singleton; cbn;
    unfold keptAddr; auto.
Qed.

Lemma genUpdate_link_kept (k : Kernel) (links : list (option netlink.Link))
    (st : gmap Z string * gmap string Interface) :
  map_Forall (λ _ inf,
      Forall (λ a, keptAddr (netlink.IP (Address_N a))) (Interface_Addr inf))
    (snd st) →
  map_Forall (λ _ inf,
      Forall (λ a, keptAddr (netlink.IP (Address_N a))) (Interface_Addr inf))
    (snd (fold_left (genUpdate_link k) links st)).
Proof.
  revert st. induction links as [|link links IH]; intros st Hst; [done|].
  cbn. apply IH. unfold genUpdate_link.
  destruct link as [l|]; [|done].
  destruct (netlink.Attrs l) as [attrs|]; [|done].
  cbn. apply map_Forall_insert_2; [|done].
  cbn. by apply genUpdate_addr_kept.
Qed.

(** C4. In every snapshot, every address stored in an interface of the
    interfaces map is link-local unicast or global unicast; none is a
    loopback, multicast or unspecified address. *)
Theorem genUpdate_addresses_unicast
    (k : Kernel) (last : option Update)
    (n : string) (inf : Interface) (a : Address) :
  Update_Interfaces (genUpdate k last) !! n = Some inf →
  a ∈ Interface_Addr inf →
  (net.IsLinkLocalUnicast (netlink.IP (Address_N a)) = true
   ∨ net.IsGlobalUnicast (netlink.IP (Address_N a)) = true)
  ∧ net.IsLoopback (netlink.IP (Address_N a)) = false
  ∧ net.IsMulticast (netlink.IP (Address_N a)) = false
  ∧ net.IsUnspecified (netlink.IP (Address_N a)) = false.
Proof.
  rewrite genUpdate_Interfaces. intros Hn Ha.
  pose proof (genUpdate_link_kept k (LinkList k) (∅, ∅)) as Hall.
  specialize (Hall (map_Forall_empty _)).
  specialize (Hall n inf Hn). cbn in Hall.
  rewrite Forall_forall in Hall. specialize (Hall a Ha).
  split; [exact Hall|].
  destruct Hall as [Hl|Hg].
  - by apply net_facts.IsLinkLocalUnicast_excludes.
  - apply net_facts.IsGlobalUnicast_excludes in Hg. tauto.
Qed.

Lemma genUpdate_route_kept (lnkIdx : gmap Z string)
    (routes : list netlink.Route) (acc : list Route) (P : Route → Prop) :
  (∀ route, route ∈ routes → keptRoute route →
            P (genUpdate_newRoute lnkIdx route)) →
  Forall P acc →
  Forall P (fold_left (genUpdate_route lnkIdx) routes acc).
Proof.
  revert acc. induction routes as [|route routes IH]; intros acc HP Hacc;
    [done|].
  cbn. apply IH.
  { intros route' Hin. apply HP. by right. }
  unfold genUpdate_route, keptRoute in *.
  destruct (Z.eqb_spec (netlink.Scope route) netlink.SCOPE_UNIVERSE) as [Eu|Eu];
    destruct (Z.eqb_spec (netlink.Scope route) netlink.SCOPE_LINK) as [El|El];
    cbn [negb andb]; try done.
  all: destruct (netlink.Dst route) as [dst|] eqn:Ed.
  all: try (destruct (net.IsLinkLocalUnicast (net.IPNet_IP dst)) eqn:Ell;
            [done|]).
  all: destruct (Z.eqb_spec (netlink.Table route) 254) as [Et|Et];
    cbn [negb]; try done.
  all: apply Forall_app; (split; [done|]); apply Forall_singleton.
  all: apply HP; [by left|].
  all: split; [done|]; split; [tauto|]; rewrite Ed; intros dst' [=];
    by subst.
Qed.

Lemma genUpdate_newRoute_default (lnkIdx : gmap Z string)
    (route : netlink.Route) :
  Route_Destination (genUpdate_newRoute lnkIdx route) = "default"
  ↔ netlink.Dst route = None.
Proof.
  unfold genUpdate_newRoute. cbn.
  destruct (netlink.Dst route) as [dst|]; [|done].
  split; [|done]. intros E. by apply IPNet_String_not_default in E.
Qed.

(** C5. In every snapshot, every retained route is a row of the kernel's
    route list with table id 254 and scope universe or link, and none has
    a link-local destination; its destination field is the sentinel
    [default] exactly when the kernel row has no destination prefix. *)
Theorem genUpdate_routes_main_table
    (k : Kernel) (last : option Update) (r : Route) :
  r ∈ Update_Routes (genUpdate k last) →
  Route_route r ∈ RouteList k
  ∧ netlink.Table (Route_route r) = 254
  ∧ (netlink.Scope (Route_route r) = netlink.SCOPE_UNIVERSE
     ∨ netlink.Scope (Route_route r) = netlink.SCOPE_LINK)
  ∧ (∀ dst, netlink.Dst (Route_route r) = Some dst →
            net.IsLinkLocalUnicast (net.IPNet_IP dst) = false)
  ∧ (Route_Destination r = "default" ↔ netlink.Dst (Route_route r) = None).
Proof.
  rewrite genUpdate_Routes. revert r. apply Forall_forall.
  apply genUpdate_route_kept; [|done].
  intros route Hin (Ht & Hs & Hd). repeat split; try done.
  all: by apply genUpdate_newRoute_default.
Qed.

(** The texts of a retained route are those of the kernel row: the
    gateway and source literals, empty when the row has none. *)
Theorem genUpdate_route_texts
    (k : Kernel) (last : option Update) (r : Route) :
  r ∈ Update_Routes (genUpdate k last) →
  Route_Gateway r
  = (if net.nonnil (netlink.Gw (Route_route r))
     then net.IP_String (netlink.Gw (Route_route r)) else "")
  ∧ Route_Src r
    = (if net.nonnil (netlink.Src (Route_route r))
       then net.IP_String (netlink.Src (Route_route r)) else "").
Proof.
  rewrite genUpdate_Routes. revert r. apply Forall_forall.
  apply genUpdate_route_kept; [|done].
  intros route _ _. split; reflexivity.
Qed.

(** C10. The snapshot function never reads its previous-update argument:
    whatever is passed for it, nil included, the same kernel enumeration
    results give the same update.  So the rolling update the loop holds
    has no influence on what the loop does next. *)
Theorem genUpdate_ignores_last :
  (∀ (k : Kernel) (last1 last2 : option Update),
      genUpdate k last1 = genUpdate k last2)
  ∧ (∀ (interval : Z) (evs : list (Kernel * Event)) (calls : list Update)
       (last1 last2 : Update),
        Monitor_loop interval calls last1 evs
        = Monitor_loop interval calls last2 evs).
Proof.
  split; [reflexivity|].
  intros interval evs.
  induction evs as [|[k ev] evs IH]; intros calls last1 last2; [done|].
  cbn [Monitor_loop].
  destruct ev as [|[a|]|[l|]|[r|]|n|]; try reflexivity.
  - apply IH.
  - destruct (0 <? interval); apply IH.
Qed.

End Snapshot.

(** ** The order of [sort.Strings] *)

Module sort_facts.

Lemma leb_trans (s t u : string) :
  String.leb s t = true → String.leb t u = true → String.leb s u = true.
Proof.
  unfold String.leb. revert t u.
  induction s as [|a s IH]; intros [|b t] [|c u]; cbn; try done.
  unfold Ascii.compare.
  destruct (N.compare_spec (N_of_ascii a) (N_of_ascii b)) as [Eab|Lab|Gab];
    destruct (N.compare_spec (N_of_ascii b) (N_of_ascii c)) as [Ebc|Lbc|Gbc];
    destruct (N.compare_spec (N_of_ascii a) (N_of_ascii c)) as [Eac|Lac|Gac];
    try done; try lia.
  apply IH.
Qed.

#[export] Instance le_trans : Transitive sort.le.
Proof. intros s t u. apply leb_trans. Qed.

#[export] Instance le_total : Total sort.le.
Proof. intros s t. apply String.leb_total. Qed.

#[export] Instance le_antisym : AntiSymm (=) sort.le.
Proof. intros s t. apply String.leb_antisym. Qed.

Lemma Strings_sorted (l : list string) : StronglySorted sort.le (sort.Strings l).
Proof. apply StronglySorted_merge_sort; apply _. Qed.

Lemma Strings_perm (l : list string) : sort.Strings l ≡ₚ l.
Proof. apply merge_sort_Permutation. Qed.

(** Whatever puts [l] in increasing order gives the list [sort.Strings l]:
    the sorting algorithm does not matter. *)
Lemma Strings_unique (l l' : list string) :
  l' ≡ₚ l → StronglySorted sort.le l' → l' = sort.Strings l.
Proof.
  intros Hp Hs. apply (StronglySorted_unique sort.le); [done| |].
  - apply Strings_sorted.
  - by rewrite Hp, Strings_perm.
Qed.

(** Sorting forgets the order of the input. *)
Lemma Strings_proper (l l' : list string) :
  l ≡ₚ l' → sort.Strings l = sort.Strings l'.
Proof.
  intros Hp. apply Strings_unique; [|apply Strings_sorted].
  by rewrite Strings_perm.
Qed.

Lemma elem_of_Strings (s : string) (l : list string) :
  s ∈ sort.Strings l ↔ s ∈ l.
Proof. by rewrite Strings_perm. Qed.

(** A strongly sorted list read by positions. *)
Lemma StronglySorted_lookup (l : list string) :
  StronglySorted sort.le l →
  ∀ (i j : nat) (s t : string),
    (i < j)%nat → l !! i = Some s → l !! j = Some t → sort.le s t.
Proof.
  induction 1 as [|x l Hl IH Hx]; intros i j s t Hij Hi Hj; [done|].
  destruct j as [|j]; [lia|]. cbn in Hj.
  destruct i as [|i]; cbn in Hi.
  - simplify_eq. rewrite Forall_forall in Hx. apply Hx.
    by eapply list_elem_of_lookup_2.
  - apply (IH i j); [lia|done|done].
Qed.

End sort_facts.

(** ** The environment marshaller *)

Section Marshaller.
Context `{!net.Codec}.

(** *** Order of the output *)

(** C8. The list the marshaller returns is in increasing lexicographic
    order: an entry at an earlier position is at most the entry at any later
    position, in the byte order of strings.  It holds exactly the entries
    appended before the sort.  This is so whatever the order in which the
    interfaces map is ranged over. *)
Theorem MarshalEnv_sorted (ifs : list (string * Interface)) (u : Update) :
  StronglySorted (λ s t, String.leb s t = true) (MarshalEnv_ranging ifs u)
  ∧ (∀ (i j : nat) (s t : string),
        (i < j)%nat →
        MarshalEnv_ranging ifs u !! i = Some s →
        MarshalEnv_ranging ifs u !! j = Some t →
        String.leb s t = true)
  ∧ MarshalEnv_ranging ifs u ≡ₚ MarshalEnv_unsorted ifs u.
Proof.
  split; [|split].
  - apply sort_facts.Strings_sorted.
  - apply sort_facts.StronglySorted_lookup, sort_facts.Strings_sorted.
  - apply sort_facts.Strings_perm.
Qed.

Lemma MarshalEnv_unsorted_perm (u : Update)
    (ifs1 ifs2 : list (string * Interface)) :
  ifs1 ≡ₚ ifs2 → MarshalEnv_unsorted ifs1 u ≡ₚ MarshalEnv_unsorted ifs2 u.
Proof.
  intros Hp. unfold MarshalEnv_unsorted.
  apply Permutation_app_head, Permutation_app_tail.
  by apply Permutation_flat_map.
Qed.

(** C7. The marshaller is deterministic: two runs on the same update
    return the same list in the same order, in whatever orders the two
    runs range over the interfaces map. *)
Theorem MarshalEnv_deterministic (u : Update)
    (ifs1 ifs2 : list (string * Interface)) :
  range_of (Update_Interfaces u) ifs1 →
  range_of (Update_Interfaces u) ifs2 →
  MarshalEnv_ranging ifs1 u = MarshalEnv_ranging ifs2 u.
Proof.
  unfold range_of. intros H1 H2.
  apply sort_facts.Strings_proper, MarshalEnv_unsorted_perm.
  by rewrite H1, H2.
Qed.

(** *** Addresses of the interfaces *)

(** What the marshaller appends for an address reaches the output. *)
Lemma MarshalEnv_addr_in_output (ifs : list (string * Interface))
    (u : Update) (n : string) (inf : Interface) (a : Address) (s : string) :
  (n, inf) ∈ ifs → a ∈ Interface_Addr inf →
  s ∈ MarshalEnv_addr n a → s ∈ MarshalEnv_ranging ifs u.
Proof.
  intros Hn Ha Hs. apply sort_facts.elem_of_Strings.
  unfold MarshalEnv_unsorted.
  apply elem_of_app; right. apply elem_of_app; left.
  apply list_elem_of_In, in_flat_map. exists (n, inf).
  split; [by apply list_elem_of_In|].
  apply list_elem_of_In. unfold MarshalEnv_iface.
  apply elem_of_app; left.
  apply list_elem_of_In, in_flat_map. exists a.
  split; by apply list_elem_of_In.
Qed.

Lemma MarshalEnv_addr_unique_local (n : string) (a : Address) :
  net.To4 (net.ParseIP (Address_Address a)) = None →
  net.IsPrivate (net.ParseIP (Address_Address a)) = true →
  MarshalEnv_addr n a = [].
Proof.
  intros H4 Hp. unfold MarshalEnv_addr.
  rewrite (net_facts.IsPrivate_v6_not_link_local _ H4 Hp), H4, Hp.
  cbn.
  destruct (net.IsGlobalUnicast _); [|done].
  by destruct (net.nonnil (net.To16 _)).
Qed.

Lemma MarshalEnv_addr_link_local_v6 (n : string) (a : Address) :
  net.To4 (net.ParseIP (Address_Address a)) = None →
  net.IsLinkLocalUnicast (net.ParseIP (Address_Address a)) = true →
  MarshalEnv_addr n a = ["IPMON_LL_IPV6_" +:+ n +:+ "=" +:+ Address_Address a].
Proof.
  intros H4 Hl. unfold MarshalEnv_addr. rewrite Hl, H4.
  assert (Hg : net.IsGlobalUnicast (net.ParseIP (Address_Address a)) = false).
  { unfold net.IsGlobalUnicast. rewrite Hl. cbn. by rewrite andb_false_r. }
  rewrite Hg.
  assert (Hlen : net.len (net.ParseIP (Address_Address a)) = net.IPv6len).
  { unfold net.IsLinkLocalUnicast in Hl. rewrite H4 in Hl.
    net_facts.bool_hyps. by apply Nat.eqb_eq. }
  destruct (net_facts.To4_None_len16 _ H4 Hlen) as [-> ->].
  reflexivity.
Qed.

(** C6. For an interface address that parses to a unique-local IPv6
    address the marshaller appends nothing: no key [IPMON_IPV6_<iface>],
    [IPMON_IPV6_MASK_<iface>] or [IPMON_IPV6_TTL_<iface>] for it.  For an
    IPv6 address that is link-local it appends the key
    [IPMON_LL_IPV6_<iface>], which reaches the output. *)
Theorem MarshalEnv_unique_local_excluded (n : string) (a : Address) :
  net.To4 (net.ParseIP (Address_Address a)) = None →
  (net.IsPrivate (net.ParseIP (Address_Address a)) = true →
     MarshalEnv_addr n a = []
     ∧ ∀ v : string,
         ("IPMON_IPV6_" +:+ n +:+ "=" +:+ v ∉ MarshalEnv_addr n a)
         ∧ ("IPMON_IPV6_MASK_" +:+ n +:+ "=" +:+ v ∉ MarshalEnv_addr n a)
         ∧ ("IPMON_IPV6_TTL_" +:+ n +:+ "=" +:+ v ∉ MarshalEnv_addr n a))
  ∧ (net.IsLinkLocalUnicast (net.ParseIP (Address_Address a)) = true →
       "IPMON_LL_IPV6_" +:+ n +:+ "=" +:+ Address_Address a
         ∈ MarshalEnv_addr n a
       ∧ ∀ (ifs : list (string * Interface)) (u : Update) (inf : Interface),
           (n, inf) ∈ ifs → a ∈ Interface_Addr inf →
           "IPMON_LL_IPV6_" +:+ n +:+ "=" +:+ Address_Address a
             ∈ MarshalEnv_ranging ifs u).
Proof.
  intros H4. split.
  - intros Hp. rewrite (MarshalEnv_addr_unique_local n a H4 Hp).
    split; [done|]. intros v. repeat split; apply not_elem_of_nil.
  - intros Hl.
    assert (Hin : "IPMON_LL_IPV6_" +:+ n +:+ "=" +:+ Address_Address a
                    ∈ MarshalEnv_addr n a).
    { rewrite (MarshalEnv_addr_link_local_v6 n a H4 Hl).
      apply list_elem_of_singleton. reflexivity. }
    split; [done|]. intros ifs u inf Hn Ha.
    by eapply MarshalEnv_addr_in_output.
Qed.

(** *** Default routes *)

Lemma selected_skip (p : Z) (rs : list Route) (d : option Route) (x : Route) :
  selected p rs d → ¬ candidate p x → selected p (rs ++ [x]) d.
Proof.
  intros Hsel Hx. destruct d as [r|]; cbn in *.
  - destruct Hsel as (i & Hi & Hc & Hmin). exists i.
    split; [by apply lookup_app_l_Some|]. split; [done|].
    intros j r' Hj Hc'. apply lookup_snoc_Some in Hj as [[_ Hj]|[_ <-]];
      [by eapply Hmin|done].
  - intros r Hr. apply elem_of_app in Hr as [Hr|Hr]; [by apply Hsel|].
    apply list_elem_of_singleton in Hr. by subst.
Qed.

Lemma selected_take (p : Z) (rs : list Route) (d : option Route) (x : Route) :
  selected p rs d → candidate p x → MarshalEnv_better d x = true →
  selected p (rs ++ [x]) (Some x).
Proof.
  intros Hsel Hx Hb. exists (length rs).
  split; [by apply list_lookup_middle|]. split; [done|].
  intros j r' Hj Hc'. apply lookup_snoc_Some in Hj as [[Hlt Hj]|[-> <-]];
    [|right; split; [done|lia]].
  left. destruct d as [r|]; cbn in *.
  - destruct Hsel as (i & Hi & Hc & Hmin).
    apply Z.ltb_lt in Hb. destruct (Hmin j r' Hj Hc'); lia.
  - exfalso. apply (Hsel r'); [by eapply list_elem_of_lookup_2|done].
Qed.

Lemma selected_keep (p : Z) (rs : list Route) (d : option Route) (x : Route) :
  selected p rs d → candidate p x → MarshalEnv_better d x = false →
  selected p (rs ++ [x]) d.
Proof.
  intros Hsel Hx Hb. destruct d as [r|]; [|discriminate].
  cbn in *. destruct Hsel as (i & Hi & Hc & Hmin). exists i.
  split; [by apply lookup_app_l_Some|]. split; [done|].
  intros j r' Hj Hc'. apply lookup_snoc_Some in Hj as [[_ Hj]|[-> <-]];
    [by eapply Hmin|].
  apply Z.ltb_ge in Hb. apply lookup_lt_Some in Hi. lia.
Qed.

Lemma MarshalEnv_route_selected (rs : list Route)
    (st : option Route * option Route) (x : Route) :
  selected 4 rs (fst st) ∧ selected 6 rs (snd st) →
  selected 4 (rs ++ [x]) (fst (MarshalEnv_route st x))
  ∧ selected 6 (rs ++ [x]) (snd (MarshalEnv_route st x)).
Proof.
  destruct st as [d4 d6]. cbn [fst snd]. intros [H4 H6].
  unfold MarshalEnv_route.
  destruct (netlink.Dst (Route_route x)) as [dst|] eqn:Ed.
  { split; apply selected_skip; try done; intros [? _]; congruence. }
  destruct (Z.eqb_spec (netlink.Protocol (Route_route x)) 4) as [E4|E4].
  - assert (candidate 4 x) by done.
    assert (¬ candidate 6 x) by (intros [_ ?]; lia).
    destruct (MarshalEnv_better d4 x) eqn:Eb; cbn [fst snd]; split;
      first [ by eapply selected_take
            | by apply selected_keep
            | by apply selected_skip ].
  - assert (¬ candidate 4 x) by (intros [_ ?]; lia).
    destruct (Z.eqb_spec (netlink.Protocol (Route_route x)) 6) as [E6|E6].
    + assert (candidate 6 x) by done.
      destruct (MarshalEnv_better d6 x) eqn:Eb; cbn [fst snd]; split;
        first [ by eapply selected_take
              | by apply selected_keep
              | by apply selected_skip ].
    + assert (¬ candidate 6 x) by (intros [_ ?]; lia).
      split; by apply selected_skip.
Qed.

Lemma MarshalEnv_defRoutes_selected (rs : list Route) :
  selected 4 rs (fst (MarshalEnv_defRoutes rs))
  ∧ selected 6 rs (snd (MarshalEnv_defRoutes rs)).
Proof.
  unfold MarshalEnv_defRoutes.
  induction rs as [|x rs IH] using rev_ind.
  - split; intros r Hr; by apply elem_of_nil in Hr.
  - rewrite fold_left_app. cbn [fold_left].
    by apply MarshalEnv_route_selected.
Qed.






Lemma MarshalEnv_defRoute_in_output (ifs : list (string * Interface))
    (u : Update) (s : string) :
  s ∈ MarshalEnv_defRouteIPv4 (fst (MarshalEnv_defRoutes (Update_Routes u)))
  ∨ s ∈ MarshalEnv_defRouteIPv6 (snd (MarshalEnv_defRoutes (Update_Routes u))) →
  s ∈ MarshalEnv_ranging ifs u.
Proof.
  intros Hs. apply sort_facts.elem_of_Strings. unfold MarshalEnv_unsorted.
  cbv zeta. rewrite !elem_of_app. tauto.
Qed.








(** The scenario of the specification: of two default routes of family 4
    with priorities 100 and 50, in this order, the second is selected and
    [IPMON_IPV4_GW] carries its gateway. *)
Example MarshalEnv_default_route_100_50 (gw1 gw2 : list Z) :
  let mk (prio : Z) (gw : list Z) :=
    {| Route_Destination := "default"; Route_Gateway := "";
       Route_Link := "eth0"; Route_Src := "";
       Route_route :=
         {| netlink.LinkIndex := 2; netlink.ILinkIndex := 0;
            netlink.Scope := netlink.SCOPE_UNIVERSE;
            netlink.Dst := None; netlink.Src := None;
            netlink.Gw := Some gw; netlink.Protocol := 4;
            netlink.Priority := prio; netlink.Table := 254 |} |} in
  MarshalEnv_defRoutes [mk 100 gw1; mk 50 gw2] = (Some (mk 50 gw2), None)
  ∧ MarshalEnv_defRouteIPv4 (Some (mk 50 gw2))
    = ["IPMON_IPV4_IF=eth0"; "IPMON_IPV4_GW=" +:+ net.IP_String (Some gw2)].
Proof. split; reflexivity. Qed.

End Marshaller.

(** ** The event loop *)

Section Loop.
Context `{!net.Codec}.

(** Names the update and the verdict of the deriver at the head of the
    goal, or splits on whether there is a ticker. *)
Ltac loop_step :=
  try match goal with
    | |- context [addrUpdate ?k ?u ?a] =>
        destruct (addrUpdate k u a) as [u' notable]
    | |- context [linkUpdate ?u ?l] =>
        destruct (linkUpdate u l) as [u' notable]
    | |- context [routeUpdate ?k ?u ?r] =>
        destruct (routeUpdate k u r) as [u' notable]
    | |- context [0 <? ?interval] => destruct (0 <? interval)
    end.

(** The loop only ever returns a nil error. *)
Lemma Monitor_loop_no_error (interval : Z) (evs : list (Kernel * Event))
    (calls : list Update) (lastUpdate : Update) (err : string) :
  fst (Monitor_loop interval calls lastUpdate evs) ≠ Returned (Some err).
Proof.
  revert calls lastUpdate.
  induction evs as [|[k ev] evs IH]; intros calls lastUpdate; [done|].
  cbn [Monitor_loop].
  destruct ev as [|[a|]|[l|]|[r|]|n|]; try done; loop_step; apply IH.
Qed.

(** The loop keeps the calls made so far and only adds to them. *)
Lemma Monitor_loop_calls (interval : Z) (evs : list (Kernel * Event))
    (calls : list Update) (lastUpdate : Update) :
  calls `prefix_of` snd (Monitor_loop interval calls lastUpdate evs).
Proof.
  revert calls lastUpdate.
  induction evs as [|[k ev] evs IH]; intros calls lastUpdate; [done|].
  cbn [Monitor_loop].
  destruct ev as [|[a|]|[l|]|[r|]|n|]; try done; loop_step;
    (etrans; [|apply IH]); try done;
    try (destruct notable; [|done]); by apply prefix_app_r.
Qed.

(** The loop returns nil at the first cancellation or closing of a
    channel it receives from. *)
Lemma Monitor_loop_closing (interval : Z)
    (pre post : list (Kernel * Event)) (k : Kernel) (ev : Event)
    (calls : list Update) (lastUpdate : Update) :
  Forall (λ e, closing (snd e) = false) pre →
  closing ev = true →
  fst (Monitor_loop interval calls lastUpdate (pre ++ (k, ev) :: post))
  = Returned None.
Proof.
  intros Hpre Hev. revert calls lastUpdate.
  induction Hpre as [|[k' ev'] pre Hev' _ IH]; intros calls lastUpdate.
  - cbn. by destruct ev as [|[a|]|[l|]|[r|]|n|].
  - cbn [app Monitor_loop]. cbn in Hev'.
    destruct ev' as [|[a|]|[l|]|[r|]|n|]; try done; loop_step; apply IH.
Qed.

(** Without such an event the loop goes on waiting. *)
Lemma Monitor_loop_waiting (interval : Z) (evs : list (Kernel * Event))
    (calls : list Update) (lastUpdate : Update) :
  Forall (λ e, closing (snd e) = false) evs →
  fst (Monitor_loop interval calls lastUpdate evs) = Waiting.
Proof.
  intros Hevs. revert calls lastUpdate.
  induction Hevs as [|[k ev] evs Hev _ IH]; intros calls lastUpdate; [done|].
  cbn [Monitor_loop]. cbn in Hev.
  destruct ev as [|[a|]|[l|]|[r|]|n|]; try done; loop_step; apply IH.
Qed.

(** Nothing that happens on the neighbour channel is seen by the loop. *)
Lemma Monitor_loop_neighbour (interval : Z) (evs : list (Kernel * Event))
    (k : Kernel) (n : option netlink.NeighUpdate)
    (calls : list Update) (lastUpdate : Update) :
  Monitor_loop interval calls lastUpdate ((k, NeighUpd n) :: evs)
  = Monitor_loop interval calls lastUpdate evs.
Proof. reflexivity. Qed.

(** The ticker is made for every interval below 9223372037 seconds: up to
    there the period in nanoseconds fits an [int64]. *)
Lemma ticker_panics_small (interval : Z) :
  interval < 9223372037 → ticker_panics interval = false.
Proof.
  intros Hi. unfold ticker_panics.
  destruct (Z.ltb_spec 0 interval) as [Hp|Hp]; [|done]. cbn [andb].
  apply Z.leb_gt.
  unfold time.mul, time.Duration, time.Second, time.int64.
  assert (H63 : 2 ^ 63 = 9223372036854775808) by reflexivity.
  assert (H64 : 2 ^ 64 = 18446744073709551616) by reflexivity.
  rewrite H63, H64.
  rewrite (Z.mod_small (interval + 9223372036854775808)) by lia.
  replace (interval + 9223372036854775808 - 9223372036854775808)
    with interval by lia.
  rewrite Z.mod_small by lia. lia.
Qed.

(** [Monitor] once the four subscriptions stand. *)
Lemma Monitor_subscribed (subs : Subscriptions) (k0 : Kernel) (interval : Z)
    (evs : list (Kernel * Event)) :
  subscribed subs →
  Monitor subs k0 interval evs
  = if ticker_panics interval
    then (Panicked, [set_Type "init" (genUpdate k0 None)])
    else Monitor_loop interval [set_Type "init" (genUpdate k0 None)]
           (set_Type "init" (genUpdate k0 None)) evs.
Proof.
  intros (H1 & H2 & H3 & H4). unfold Monitor, ticker_panics, time.NewTicker.
  rewrite H1, H2, H3, H4.
  destruct (0 <? interval); [|done]. cbn [andb].
  by destruct (_ <=? 0).
Qed.

(** [Monitor] when one of them fails. *)
Lemma Monitor_unsubscribed (subs : Subscriptions) (k0 : Kernel) (interval : Z)
    (evs : list (Kernel * Event)) :
  ¬ subscribed subs →
  ∃ err, Monitor subs k0 interval evs = (Returned (Some err), [])
         ∧ (NeighSubscribeWithOptions subs = Some err
            ∨ AddrSubscribe subs = Some err
            ∨ RouteSubscribe subs = Some err
            ∨ LinkSubscribe subs = Some err).
Proof.
  unfold subscribed, Monitor. intros Hn.
  destruct (NeighSubscribeWithOptions subs) as [e1|]; [by eauto|].
  destruct (AddrSubscribe subs) as [e2|]; [by eauto|].
  destruct (RouteSubscribe subs) as [e3|]; [by eauto 6|].
  destruct (LinkSubscribe subs) as [e4|]; [by eauto 6|].
  by destruct Hn.
Qed.

(** C9, amended. [Monitor] returns a non-nil error only when one of the
    four subscriptions fails, and no update, the initial one included, has
    then been passed to the handler.  Once the four subscriptions stand, the
    handler gets the initial update first.  Then, when the ticker can be
    made, which is so for every interval below 9223372037 seconds,
    [Monitor] returns a nil error at the first cancellation of the context
    or closing of the address, link or route channel, and until then it
    goes on waiting, whatever happens on the neighbour channel.  For a
    positive interval whose period in nanoseconds wraps around to a value
    that is not positive, [time.NewTicker] panics after the initial update
    and [Monitor] returns nothing. *)
Theorem Monitor_error_only_from_subscriptions
    (subs : Subscriptions) (k0 : Kernel) (interval : Z)
    (evs : list (Kernel * Event)) :
  (∀ err, fst (Monitor subs k0 interval evs) = Returned (Some err) →
      ¬ subscribed subs
      ∧ (NeighSubscribeWithOptions subs = Some err
         ∨ AddrSubscribe subs = Some err
         ∨ RouteSubscribe subs = Some err
         ∨ LinkSubscribe subs = Some err)
      ∧ snd (Monitor subs k0 interval evs) = [])
  ∧ (¬ subscribed subs →
       ∃ err, Monitor subs k0 interval evs = (Returned (Some err), []))
  ∧ (subscribed subs →
       [set_Type "init" (genUpdate k0 None)]
         `prefix_of` snd (Monitor subs k0 interval evs)
       ∧ (ticker_panics interval = false →
          ∀ pre k ev post,
            evs = pre ++ (k, ev) :: post →
            Forall (λ e, closing (snd e) = false) pre →
            closing ev = true →
            fst (Monitor subs k0 interval evs) = Returned None))
  ∧ (subscribed subs →
       ticker_panics interval = false →
       Forall (λ e, closing (snd e) = false) evs →
       fst (Monitor subs k0 interval evs) = Waiting)
  ∧ (subscribed subs →
       ticker_panics interval = true →
       Monitor subs k0 interval evs
       = (Panicked, [set_Type "init" (genUpdate k0 None)]))
  ∧ (interval < 9223372037 → ticker_panics interval = false).
Proof.
  split; [|split; [|split; [|split; [|split]]]].
  - intros err Herr.
    assert (Hd : subscribed subs ∨ ¬ subscribed subs).
    { unfold subscribed.
      destruct (NeighSubscribeWithOptions subs), (AddrSubscribe subs),
        (RouteSubscribe subs), (LinkSubscribe subs); naive_solver. }
    destruct Hd as [Hs|Hn].
    + rewrite (Monitor_subscribed _ _ _ _ Hs) in Herr.
      destruct (ticker_panics interval); [done|].
      by apply Monitor_loop_no_error in Herr.
    + destruct (Monitor_unsubscribed subs k0 interval evs Hn)
        as (err' & HM & Herr').
      rewrite HM in Herr |- *. cbn in Herr. by simplify_eq.
  - intros Hn.
    destruct (Monitor_unsubscribed subs k0 interval evs Hn) as (err & HM & _).
    by exists err.
  - intros Hs. rewrite (Monitor_subscribed _ _ _ _ Hs). split.
    + destruct (ticker_panics interval); [done|apply Monitor_loop_calls].
    + intros -> pre k ev post -> Hpre Hev. by apply Monitor_loop_closing.
  - intros Hs Ht Hevs. rewrite (Monitor_subscribed _ _ _ _ Hs), Ht.
    by apply Monitor_loop_waiting.
  - intros Hs Ht. by rewrite (Monitor_subscribed _ _ _ _ Hs), Ht.
  - apply ticker_panics_small.
Qed.

(** The first interval for which the ticker cannot be made: 9223372037
    seconds are more nanoseconds than an [int64] holds, the period comes
    out negative, and [Monitor] panics with the initial update handed
    over, whatever the events. *)
Example Monitor_ticker_overflow (subs : Subscriptions) (k0 : Kernel)
    (evs : list (Kernel * Event)) :
  subscribed subs →
  time.mul (time.Duration 9223372037) time.Second = -9223372036709551616
  ∧ Monitor subs k0 9223372037 evs
    = (Panicked, [set_Type "init" (genUpdate k0 None)]).
Proof.
  intros Hs. split; [reflexivity|].
  by rewrite (Monitor_subscribed _ _ _ _ Hs).
Qed.

End Loop.

(** ** Further properties of the derivers and the marshaller *)

Section Further.
Context `{!net.Codec}.

(** An address change is always notable; it is tagged [address] and
    carries the one change tag [add] or [delete]. *)
Theorem addrUpdate_always_notable
    (k : Kernel) (u : Update) (a : netlink.AddrUpdate) :
  snd (addrUpdate k u a) = true
  ∧ Update_Type (fst (addrUpdate k u a)) = "address"
  ∧ Update_Change (fst (addrUpdate k u a))
    = [if netlink.NewAddr a then "add" else "delete"].
Proof.
  unfold addrUpdate. cbn [fst snd].
  destruct (linkName _), (netlink.NewAddr a); done.
Qed.

(** The derivers annotate the snapshot they are given and leave its
    interfaces and routes as they are. *)
Theorem derivers_keep_snapshot (k : Kernel) (u : Update) :
  (∀ a, Update_Interfaces (fst (addrUpdate k u a)) = Update_Interfaces u
        ∧ Update_Routes (fst (addrUpdate k u a)) = Update_Routes u)
  ∧ (∀ l, Update_Interfaces (fst (linkUpdate u l)) = Update_Interfaces u
          ∧ Update_Routes (fst (linkUpdate u l)) = Update_Routes u)
  ∧ (∀ r, Update_Interfaces (fst (routeUpdate k u r)) = Update_Interfaces u
          ∧ Update_Routes (fst (routeUpdate k u r)) = Update_Routes u).
Proof.
  split; [|split].
  - intros a. unfold addrUpdate. cbn [fst].
    destruct (linkName _), (netlink.NewAddr a); done.
  - intros l. unfold linkUpdate.
    destruct (linkName _), (Z.land _ unix.IFF_UP =? 0); done.
  - intros r. unfold routeUpdate. cbv zeta. repeat case_match; done.
Qed.

(** The marshaller always emits the type of the update. *)
Theorem MarshalEnv_emits_type (ifs : list (string * Interface)) (u : Update) :
  "IPMON_TYPE=" +:+ Update_Type u ∈ MarshalEnv_ranging ifs u.
Proof.
  apply sort_facts.elem_of_Strings. unfold MarshalEnv_unsorted, MarshalEnv_head.
  apply elem_of_app; left. apply elem_of_app; left.
  by apply list_elem_of_singleton.
Qed.

End Further.

(** ** The snapshot function, read as filters *)

Section SnapshotExact.
Context `{!net.Codec}.

Lemma land_IFF_UP_eqb (x : Z) :
  (Z.land x unix.IFF_UP =? unix.IFF_UP) = Z.testbit x 0.
Proof.
  unfold unix.IFF_UP. change 1 with (Z.ones 1) at 1.
  rewrite Z.land_ones by lia. change (2 ^ 1) with 2.
  rewrite Z.bit0_odd, Zmod_odd.
  destruct (Z.odd x); reflexivity.
Qed.

Lemma genUpdate_addr_fold (addrs : list netlink.Addr) (acc : list Address) :
  fold_left genUpdate_addr addrs acc
  = acc ++ map newAddress (List.filter keepsAddr addrs).
Proof.
  revert acc. induction addrs as [|addr addrs IH]; intros acc.
  { cbn. by rewrite app_nil_r. }
  cbn [fold_left List.filter]. rewrite IH. unfold genUpdate_addr, keepsAddr.
  destruct (net.IsGlobalUnicast _), (net.IsLinkLocalUnicast _); cbn;
    try done; by rewrite <- app_assoc.
Qed.

Lemma genUpdate_link_step (k : Kernel)
    (st : gmap Z string * gmap string Interface) (l : netlink.Link)
    (attrs : netlink.LinkAttrs) :
  netlink.Attrs l = Some attrs →
  genUpdate_link k st (Some l)
  = (<[netlink.Index attrs := netlink.Name attrs]> (fst st),
     <[netlink.Name attrs := newInterface k l attrs]> (snd st)).
Proof.
  intros E. unfold genUpdate_link. rewrite E. unfold newInterface.
  by rewrite genUpdate_addr_fold, land_IFF_UP_eqb.
Qed.

(** What the loop over the links has left in its two maps. *)
Lemma genUpdate_link_fold (k : Kernel) (links : list (option netlink.Link)) :
  let st := fold_left (genUpdate_link k) links (∅, ∅) in
  (∀ n inf, snd st !! n = Some inf →
     ∃ l attrs, Some l ∈ links ∧ netlink.Attrs l = Some attrs
                ∧ netlink.Name attrs = n ∧ inf = newInterface k l attrs)
  ∧ (∀ l attrs, Some l ∈ links → netlink.Attrs l = Some attrs →
       is_Some (snd st !! netlink.Name attrs)
       ∧ is_Some (fst st !! netlink.Index attrs))
  ∧ (∀ i name, fst st !! i = Some name →
       ∃ l attrs, Some l ∈ links ∧ netlink.Attrs l = Some attrs
                  ∧ netlink.Index attrs = i ∧ netlink.Name attrs = name).
Proof.
  induction links as [|link links IH] using rev_ind.
  { cbn. split; [|split].
    - intros n inf Hn. by rewrite lookup_empty in Hn.
    - intros l attrs Hin. by apply elem_of_nil in Hin.
    - intros i name Hi. by rewrite lookup_empty in Hi. }
  rewrite fold_left_app. cbn [fold_left].
  destruct IH as (HA & HB & HC).
  set (st := fold_left (genUpdate_link k) links (∅, ∅)) in *.
  destruct link as [l0|]; [destruct (netlink.Attrs l0) as [attrs0|] eqn:E0|].
  - rewrite (genUpdate_link_step k st l0 attrs0 E0). cbn [fst snd].
    split; [|split].
    + intros n inf Hn.
      apply lookup_insert_Some in Hn as [[<- <-]|[_ Hn]].
      * exists l0, attrs0. split; [|done].
        apply elem_of_app; right. by apply list_elem_of_singleton.
      * destruct (HA n inf Hn) as (l & attrs & Hin & Hrest).
        exists l, attrs. split; [|done]. apply elem_of_app; by left.
    + intros l attrs Hin Ha.
      apply elem_of_app in Hin as [Hin|Hin].
      * destruct (HB l attrs Hin Ha) as [[inf Hn] [name Hi]]. split.
        -- destruct (decide (netlink.Name attrs0 = netlink.Name attrs)) as [->|Hne];
             [rewrite lookup_insert_eq|rewrite lookup_insert_ne by done]; eauto.
        -- destruct (decide (netlink.Index attrs0 = netlink.Index attrs)) as [->|Hne];
             [rewrite lookup_insert_eq|rewrite lookup_insert_ne by done]; eauto.
      * apply list_elem_of_singleton in Hin. simplify_eq.
        rewrite !lookup_insert_eq. eauto.
    + intros i name Hi.
      apply lookup_insert_Some in Hi as [[<- <-]|[_ Hi]].
      * exists l0, attrs0. split; [|done].
        apply elem_of_app; right. by apply list_elem_of_singleton.
      * destruct (HC i name Hi) as (l & attrs & Hin & Hrest).
        exists l, attrs. split; [|done]. apply elem_of_app; by left.
  - assert (Est : genUpdate_link k st (Some l0) = st)
      by (unfold genUpdate_link; by rewrite E0).
    rewrite Est. split; [|split].
    + intros n inf Hn. destruct (HA n inf Hn) as (l & attrs & Hin & Hrest).
      exists l, attrs. split; [|done]. apply elem_of_app; by left.
    + intros l attrs Hin Ha. apply elem_of_app in Hin as [Hin|Hin]; [by apply (HB l attrs)|].
      apply list_elem_of_singleton in Hin. simplify_eq.
    + intros i name Hi. destruct (HC i name Hi) as (l & attrs & Hin & Hrest).
      exists l, attrs. split; [|done]. apply elem_of_app; by left.
  - change (genUpdate_link k st None) with st. split; [|split].
    + intros n inf Hn. destruct (HA n inf Hn) as (l & attrs & Hin & Hrest).
      exists l, attrs. split; [|done]. apply elem_of_app; by left.
    + intros l attrs Hin Ha. apply elem_of_app in Hin as [Hin|Hin]; [by apply (HB l attrs)|].
      apply list_elem_of_singleton in Hin. simplify_eq.
    + intros i name Hi. destruct (HC i name Hi) as (l & attrs & Hin & Hrest).
      exists l, attrs. split; [|done]. apply elem_of_app; by left.
Qed.

(** The interfaces of a snapshot are the listed links that have
    attributes, each under its name: every entry of the map is the
    interface built for such a link (up flag from bit 0 of its flags, its
    unicast addresses in kernel order), and every such link has an entry.
    A nil link, or one without attributes, leaves no trace. *)
Theorem genUpdate_interfaces_exact (k : Kernel) (last : option Update) :
  (∀ n inf, Update_Interfaces (genUpdate k last) !! n = Some inf →
      ∃ l attrs, listed k l attrs ∧ netlink.Name attrs = n
                 ∧ inf = newInterface k l attrs)
  ∧ (∀ l attrs, listed k l attrs →
       is_Some (Update_Interfaces (genUpdate k last) !! netlink.Name attrs)).
Proof.
  rewrite genUpdate_Interfaces.
  destruct (genUpdate_link_fold k (LinkList k)) as (H1 & H2 & _).
  split.
  - intros n inf Hn. destruct (H1 n inf Hn) as (l & attrs & ? & ? & ? & ?).
    exists l, attrs. by repeat split.
  - intros l attrs [Hin E]. by destruct (H2 l attrs Hin E).
Qed.

Lemma genUpdate_route_fold (lnkIdx : gmap Z string)
    (routes : list netlink.Route) (acc : list Route) :
  fold_left (genUpdate_route lnkIdx) routes acc
  = acc ++ map (genUpdate_newRoute lnkIdx) (List.filter keepsRoute routes).
Proof.
  revert acc. induction routes as [|route routes IH]; intros acc.
  { cbn. by rewrite app_nil_r. }
  cbn [fold_left List.filter]. rewrite IH. unfold genUpdate_route, keepsRoute.
  destruct (netlink.Scope route =? netlink.SCOPE_UNIVERSE),
    (netlink.Scope route =? netlink.SCOPE_LINK),
    (match netlink.Dst route with
     | Some dst => net.IsLinkLocalUnicast (net.IPNet_IP dst)
     | None => false
     end),
    (netlink.Table route =? 254); cbn; try done; by rewrite <- app_assoc.
Qed.

(** The routes of a snapshot are exactly the kernel rows that pass the
    three tests (scope universe or link, no link-local destination, table
    254), one route per row and in the order of the kernel's list. *)
Theorem genUpdate_routes_exact (k : Kernel) (last : option Update) :
  map Route_route (Update_Routes (genUpdate k last))
  = List.filter keepsRoute (RouteList k).
Proof.
  rewrite genUpdate_Routes, genUpdate_route_fold. cbn [app].
  rewrite map_map. cbn. apply map_id.
Qed.

(** The interface name of a retained route is resolved through the listed
    links: it is the name of a listed link whose index is the row's link
    index, and it is empty when no listed link has that index. *)
Theorem genUpdate_route_link (k : Kernel) (last : option Update) (r : Route) :
  r ∈ Update_Routes (genUpdate k last) →
  ((∀ l attrs, listed k l attrs →
       netlink.Index attrs ≠ netlink.LinkIndex (Route_route r)) →
   Route_Link r = "")
  ∧ ((∃ l attrs, listed k l attrs
        ∧ netlink.Index attrs = netlink.LinkIndex (Route_route r)) →
     ∃ l attrs, listed k l attrs
        ∧ netlink.Index attrs = netlink.LinkIndex (Route_route r)
        ∧ netlink.Name attrs = Route_Link r).
Proof.
  rewrite genUpdate_Routes, genUpdate_route_fold. cbn [app].
  intros Hr. apply list_elem_of_fmap in Hr as (route & -> & _).
  destruct (genUpdate_link_fold k (LinkList k)) as (_ & H2 & H5).
  cbn [genUpdate_newRoute Route_Link Route_route].
  split.
  - intros Hno.
    destruct (fst _ !! netlink.LinkIndex route) as [name|] eqn:E; [|done].
    destruct (H5 _ _ E) as (l & attrs & Hin & Ha & Hi & _).
    exfalso. by apply (Hno l attrs).
  - intros (l & attrs & [Hin Ha] & Hi).
    destruct (H2 l attrs Hin Ha) as [_ [name E]]. rewrite Hi in E.
    rewrite E. cbn.
    destruct (H5 _ _ E) as (l' & attrs' & Hin' & Ha' & Hi' & Hn').
    exists l', attrs'. by repeat split.
Qed.

End SnapshotExact.

(** ** Prefix lengths *)

Module mask_facts.
Import net.

Lemma leadingOnes_bounds (rounds : nat) (n v : Z) :
  n ≤ fst (leadingOnes rounds n v) ≤ n + Z.of_nat rounds.
Proof.
  revert n v. induction rounds as [|rounds IH]; intros n v; cbn [leadingOnes].
  { cbn. lia. }
  destruct (Z.land v 0x80 =? 0); [cbn; lia|].
  specialize (IH (n + 1) (Z.shiftl v 1 mod 256)). lia.
Qed.

Lemma simpleMaskLength_from_bounds (mask : list Z) (n : Z) :
  simpleMaskLength_from n mask = -1
  ∨ n ≤ simpleMaskLength_from n mask ≤ n + 8 * Z.of_nat (length mask).
Proof.
  revert n. induction mask as [|v mask IH]; intros n; cbn [simpleMaskLength_from].
  { right. cbn. lia. }
  destruct (v =? 0xff).
  { destruct (IH (n + 8)) as [->|Hb]; [by left|]. right.
    cbn [length]. lia. }
  pose proof (leadingOnes_bounds 8 n v) as Hl.
  destruct (leadingOnes 8 n v) as [n' v']. cbn [fst] in Hl.
  destruct (negb (v' =? 0)); [by left|].
  destruct (isZeros mask); [|by left].
  right. cbn [length]. lia.
Qed.

(** [IPMask.Size] gives a prefix length between 0 and the width of the
    mask, and 0 for a nil or empty mask. *)
Lemma Size_bounds (m : IPMask) :
  0 ≤ fst (Size m) ≤ 8 * Z.of_nat (len m).
Proof.
  unfold Size, simpleMaskLength, len.
  destruct (simpleMaskLength_from_bounds (bytes m) 0) as [->|Hb]; [cbn; lia|].
  destruct (simpleMaskLength_from 0 (bytes m) =? -1); cbn; lia.
Qed.

End mask_facts.

Section SnapshotFields.
Context `{!net.Codec}.

(** Every address stored in a snapshot is one the kernel lists for a listed
    link of that name; its text is the literal of that address and its
    prefix length lies between 0 and the width of the mask in bits. *)
Theorem genUpdate_address_fields
    (k : Kernel) (last : option Update)
    (n : string) (inf : Interface) (a : Address) :
  Update_Interfaces (genUpdate k last) !! n = Some inf →
  a ∈ Interface_Addr inf →
  (∃ l attrs, listed k l attrs ∧ netlink.Name attrs = n
              ∧ Address_N a ∈ AddrList k l)
  ∧ Address_Address a = net.IP_String (netlink.IP (Address_N a))
  ∧ 0 ≤ Address_CIDR a ≤ 8 * Z.of_nat (net.len (netlink.Mask (Address_N a))).
Proof.
  rewrite genUpdate_Interfaces. intros Hn Ha.
  destruct (genUpdate_link_fold k (LinkList k)) as (H1 & _).
  destruct (H1 n inf Hn) as (l & attrs & Hin & Hattrs & Hname & ->).
  cbn [newInterface Interface_Addr] in Ha.
  apply list_elem_of_fmap in Ha as (addr & -> & Haddr).
  apply list_elem_of_In, filter_In in Haddr as [Haddr _].
  split; [|split].
  - exists l, attrs. repeat split; try done. by apply list_elem_of_In.
  - reflexivity.
  - apply mask_facts.Size_bounds.
Qed.

End SnapshotFields.

(** ** The change tags of the derivers *)

Section Tags.
Context `{!net.Codec}.

Lemma land_pow2_eqb (x i : Z) :
  0 ≤ i → (Z.land x (2 ^ i) =? 0) = negb (Z.testbit x i).
Proof.
  intros Hi. destruct (Z.testbit x i) eqn:E; cbn.
  - apply Z.eqb_neq. intros H0.
    assert (Hb : Z.testbit (Z.land x (2 ^ i)) i = false)
      by (rewrite H0; apply Z.bits_0).
    rewrite Z.land_spec, E, Z.pow2_bits_true in Hb by lia. discriminate.
  - apply Z.eqb_eq, Z.bits_inj'. intros n Hn.
    rewrite Z.land_spec, Z.bits_0, Z.pow2_bits_eqb by lia.
    destruct (Z.eqb_spec i n) as [->|]; [rewrite E|]; by rewrite ?andb_false_r.
Qed.

(** Masking with a one-bit constant tests that bit. *)
Lemma land_flag_eqb (x c : Z) :
  0 < c → c = 2 ^ Z.log2 c →
  (Z.land x c =? 0) = negb (Z.testbit x (Z.log2 c)).
Proof.
  intros Hc Hp. rewrite Hp at 1. apply land_pow2_eqb, Z.log2_nonneg.
Qed.

Lemma flag_is_bit (c : Z) (add del : string) :
  (c, add, del) ∈ trackedFlags → 0 < c ∧ c = 2 ^ Z.log2 c.
Proof.
  intros Hc. apply list_elem_of_In in Hc. cbn in Hc.
  destruct_or!; simplify_eq; done.
Qed.

Lemma elem_of_testFlag (tag : string) (a b c : Z) (add del : string) :
  tag ∈ testFlag a b c add del
  ↔ (Z.land a c =? 0) = false
    ∧ (((Z.land b c =? 0) = true ∧ tag = del)
       ∨ ((Z.land b c =? 0) = false ∧ tag = add)).
Proof.
  unfold testFlag.
  destruct (Z.land a c =? 0); [rewrite elem_of_nil; naive_solver|].
  destruct (Z.land b c =? 0); rewrite list_elem_of_singleton; naive_solver.
Qed.

Lemma linkUpdate_Change (u : Update) (a : netlink.LinkUpdate) :
  Update_Change (fst (linkUpdate u a))
  = Update_Change u
    ++ flat_map (λ '(c, add, del),
         testFlag (netlink.LinkUpdate_Change a) (netlink.LinkUpdate_Flags a)
           c add del) trackedFlags.
Proof.
  unfold linkUpdate.
  destruct (Z.land _ unix.IFF_UP =? 0); cbn [fst];
    destruct (linkName _); cbn; by rewrite <- !app_assoc, ?app_nil_r.
Qed.

(** For each of the seven tracked flags, [linkUpdate] on an update without
    change tags reports the tag of the flag being set exactly when the flag
    is among the changed bits and set in the flags word, and the tag of it
    being clear exactly when it is among the changed bits and clear. *)
Theorem linkUpdate_change_tags
    (u : Update) (a : netlink.LinkUpdate) (c : Z) (add del : string) :
  Update_Change u = [] →
  (c, add, del) ∈ trackedFlags →
  (add ∈ Update_Change (fst (linkUpdate u a))
   ↔ Z.testbit (netlink.LinkUpdate_Change a) (Z.log2 c) = true
     ∧ Z.testbit (netlink.LinkUpdate_Flags a) (Z.log2 c) = true)
  ∧ (del ∈ Update_Change (fst (linkUpdate u a))
     ↔ Z.testbit (netlink.LinkUpdate_Change a) (Z.log2 c) = true
       ∧ Z.testbit (netlink.LinkUpdate_Flags a) (Z.log2 c) = false).
Proof.
  intros Hu Hc. rewrite linkUpdate_Change, Hu. cbn [app].
  assert (Hin : ∀ tag,
    tag ∈ flat_map (λ '(c', add', del'),
            testFlag (netlink.LinkUpdate_Change a) (netlink.LinkUpdate_Flags a)
              c' add' del') trackedFlags
    ↔ ∃ c' add' del', (c', add', del') ∈ trackedFlags
        ∧ Z.testbit (netlink.LinkUpdate_Change a) (Z.log2 c') = true
        ∧ tag = (if Z.testbit (netlink.LinkUpdate_Flags a) (Z.log2 c')
                 then add' else del')).
  { intros tag. rewrite list_elem_of_In, in_flat_map. split.
    - intros ([[c' add'] del'] & Hc' & Htag).
      apply list_elem_of_In in Hc', Htag.
      destruct (flag_is_bit _ _ _ Hc') as [Hpos Hpow].
      apply elem_of_testFlag in Htag.
      rewrite !land_flag_eqb in Htag by done.
      exists c', add', del'. split; [done|].
      destruct (Z.testbit (netlink.LinkUpdate_Change a) _),
        (Z.testbit (netlink.LinkUpdate_Flags a) _); naive_solver.
    - intros (c' & add' & del' & Hc' & Hchg & ->).
      exists (c', add', del'). split; [by apply list_elem_of_In|].
      destruct (flag_is_bit _ _ _ Hc') as [Hpos Hpow].
      apply list_elem_of_In, elem_of_testFlag.
      rewrite !land_flag_eqb, Hchg by done.
      destruct (Z.testbit (netlink.LinkUpdate_Flags a) _); naive_solver. }
  rewrite !Hin.
  assert (Hnames : ∀ c' add' del', (c', add', del') ∈ trackedFlags →
            (add = add' ∨ del = del' → c' = c ∧ add' = add ∧ del' = del)
            ∧ add ≠ del' ∧ del ≠ add').
  { intros c' add' del' Hc'. apply list_elem_of_In in Hc, Hc'.
    cbn in Hc, Hc'.
    destruct_or!; simplify_eq; (split; [intros [?|?]|]); done. }
  split; split.
  - intros (c' & add' & del' & Hc' & Hchg & Htag).
    destruct (Hnames c' add' del' Hc') as (Hsame & Hne1 & Hne2).
    destruct (Z.testbit (netlink.LinkUpdate_Flags a) (Z.log2 c')) eqn:Ef;
      [|done].
    destruct Hsame as (-> & _); auto.
  - intros [Hchg Hflg]. exists c, add, del. by rewrite Hflg.
  - intros (c' & add' & del' & Hc' & Hchg & Htag).
    destruct (Hnames c' add' del' Hc') as (Hsame & Hne1 & Hne2).
    destruct (Z.testbit (netlink.LinkUpdate_Flags a) (Z.log2 c')) eqn:Ef;
      [done|].
    destruct Hsame as (-> & _); auto.
  - intros [Hchg Hflg]. exists c, add, del. by rewrite Hflg.
Qed.

End Tags.

(** ** The keys of the environment *)

Section Keys.
Context `{!net.Codec}.

(** Splits a membership in a list written with [++] and [::]. *)
Ltac in_list H :=
  rewrite ?elem_of_app, ?elem_of_cons, ?elem_of_nil in H;
  destruct_or? H; try done.

(** The entries for an address begin [IPMON_LL_] or [IPMON_IPV]. *)
Lemma MarshalEnv_addr_entries (n : string) (a : Address) (s : string) :
  s ∈ MarshalEnv_addr n a →
  (∃ rest, s = "IPMON_LL_" +:+ rest) ∨ (∃ rest, s = "IPMON_IPV" +:+ rest).
Proof.
  unfold MarshalEnv_addr. intros Hs.
  apply elem_of_app in Hs as [Hs|Hs]; [left|right];
    repeat case_match; in_list Hs; try (subst; eexists; reflexivity).
Qed.

Lemma MarshalEnv_defRoute_entries (d4 d6 : option Route) (s : string) :
  s ∈ MarshalEnv_defRouteIPv4 d4 ∨ s ∈ MarshalEnv_defRouteIPv6 d6 →
  ∃ rest, s = "IPMON_IPV" +:+ rest.
Proof.
  unfold MarshalEnv_defRouteIPv4, MarshalEnv_defRouteIPv6.
  intros [Hs|Hs]; repeat case_match; in_list Hs; try (subst; eexists; reflexivity).
Qed.

(** Where an entry of the output comes from, by the way it begins. *)
Lemma MarshalEnv_entries (ifs : list (string * Interface)) (u : Update)
    (s : string) :
  s ∈ MarshalEnv_ranging ifs u →
  s ∈ MarshalEnv_head u
  ∨ (∃ rest, s = "IPMON_LL_" +:+ rest)
  ∨ (∃ rest, s = "IPMON_IPV" +:+ rest)
  ∨ (∃ rest, s = "IPMON_UP_" +:+ rest)
  ∨ (Update_Link u ≠ "" ∧ s = "IPMON_LINK=" +:+ Update_Link u).
Proof.
  intros Hs. unfold MarshalEnv_ranging in Hs.
  rewrite sort_facts.elem_of_Strings in Hs.
  unfold MarshalEnv_unsorted in Hs. cbv zeta in Hs.
  apply elem_of_app in Hs as [Hs|Hs]; [by left|right].
  apply elem_of_app in Hs as [Hs|Hs].
  { apply list_elem_of_In, in_flat_map in Hs as ([n inf] & _ & Hs).
    apply list_elem_of_In in Hs. unfold MarshalEnv_iface in Hs.
    apply elem_of_app in Hs as [Hs|Hs].
    - apply list_elem_of_In, in_flat_map in Hs as (a & _ & Hs).
      apply list_elem_of_In, MarshalEnv_addr_entries in Hs. tauto.
    - right. right. left. case_match; in_list Hs; try (subst; eexists; reflexivity). }
  apply elem_of_app in Hs as [Hs|Hs].
  { right. right. right. case_bool_decide; in_list Hs; by split. }
  right. left. apply elem_of_app in Hs.
  by eapply MarshalEnv_defRoute_entries.
Qed.

Lemma MarshalEnv_head_in_output (ifs : list (string * Interface)) (u : Update)
    (s : string) :
  s ∈ MarshalEnv_head u → s ∈ MarshalEnv_ranging ifs u.
Proof.
  intros Hs. apply sort_facts.elem_of_Strings. unfold MarshalEnv_unsorted.
  apply elem_of_app. by left.
Qed.

(** Decides an equation between two entries that begin with letters. *)
Ltac key_eq H := cbn in H; simplify_eq.

Ltac not_head ifs u H :=
  apply MarshalEnv_entries in H
    as [H|[[rest H]|[[rest H]|[[rest H]|[_ H]]]]];
  [|key_eq H..].

Lemma MarshalEnv_TYPE_iff (ifs : list (string * Interface)) (u : Update)
    (v : string) :
  "IPMON_TYPE=" +:+ v ∈ MarshalEnv_ranging ifs u ↔ v = Update_Type u.
Proof.
  split.
  - intros Hs. not_head ifs u Hs. unfold MarshalEnv_head in Hs.
    repeat case_match; in_list Hs; key_eq Hs; done.
  - intros ->. apply MarshalEnv_head_in_output. unfold MarshalEnv_head.
    apply elem_of_app; left. by apply list_elem_of_singleton.
Qed.

Lemma MarshalEnv_CHANGE_iff (ifs : list (string * Interface)) (u : Update)
    (v : string) :
  "IPMON_CHANGE=" +:+ v ∈ MarshalEnv_ranging ifs u
  ↔ head (Update_Change u) = Some v.
Proof.
  split.
  - intros Hs. not_head ifs u Hs. unfold MarshalEnv_head in Hs.
    repeat case_match; in_list Hs; key_eq Hs; done.
  - intros Hv. apply MarshalEnv_head_in_output. unfold MarshalEnv_head.
    destruct (Update_Change u) as [|c cs]; [done|]. cbn in Hv. simplify_eq.
    apply elem_of_app; right. apply elem_of_app; left.
    by apply list_elem_of_singleton.
Qed.

Lemma MarshalEnv_ADDR_iff (ifs : list (string * Interface)) (u : Update)
    (v : string) :
  "IPMON_ADDR=" +:+ v ∈ MarshalEnv_ranging ifs u
  ↔ Address_Address <$> Update_Address u = Some v.
Proof.
  split.
  - intros Hs. not_head ifs u Hs. unfold MarshalEnv_head in Hs.
    repeat case_match; in_list Hs; key_eq Hs; done.
  - intros Hv. apply MarshalEnv_head_in_output. unfold MarshalEnv_head.
    destruct (Update_Address u) as [a|]; [|done]. cbn in Hv. simplify_eq.
    apply elem_of_app; right. apply elem_of_app; right.
    apply elem_of_app; left. apply elem_of_cons; by left.
Qed.

Lemma MarshalEnv_MASK_iff (ifs : list (string * Interface)) (u : Update)
    (v : string) :
  "IPMON_MASK=" +:+ v ∈ MarshalEnv_ranging ifs u
  ↔ pretty ∘ Address_CIDR <$> Update_Address u = Some v.
Proof.
  split.
  - intros Hs. not_head ifs u Hs. unfold MarshalEnv_head in Hs.
    repeat case_match; in_list Hs; key_eq Hs; done.
  - intros Hv. apply MarshalEnv_head_in_output. unfold MarshalEnv_head.
    destruct (Update_Address u) as [a|]; [|done]. cbn in Hv. simplify_eq.
    apply elem_of_app; right. apply elem_of_app; right.
    apply elem_of_app; left. apply elem_of_cons; right.
    by apply list_elem_of_singleton.
Qed.

Lemma MarshalEnv_GW_iff (ifs : list (string * Interface)) (u : Update)
    (v : string) :
  "IPMON_GW=" +:+ v ∈ MarshalEnv_ranging ifs u
  ↔ v ≠ "" ∧ v = Update_Gateway u.
Proof.
  split.
  - intros Hs. not_head ifs u Hs. unfold MarshalEnv_head in Hs.
    repeat case_match; repeat case_bool_decide; in_list Hs; key_eq Hs; done.
  - intros [Hne ->]. apply MarshalEnv_head_in_output. unfold MarshalEnv_head.
    rewrite bool_decide_eq_true_2 by done.
    rewrite !elem_of_app. right. right. right. left.
    by apply list_elem_of_singleton.
Qed.

Lemma MarshalEnv_SRC_iff (ifs : list (string * Interface)) (u : Update)
    (v : string) :
  "IPMON_SRC=" +:+ v ∈ MarshalEnv_ranging ifs u
  ↔ v ≠ "" ∧ v = Update_Source u.
Proof.
  split.
  - intros Hs. not_head ifs u Hs. unfold MarshalEnv_head in Hs.
    repeat case_match; repeat case_bool_decide; in_list Hs; key_eq Hs; done.
  - intros [Hne ->]. apply MarshalEnv_head_in_output. unfold MarshalEnv_head.
    rewrite (bool_decide_eq_true_2 (Update_Source u ≠ "")) by done.
    rewrite !elem_of_app. right. right. right. right.
    by apply list_elem_of_singleton.
Qed.

Lemma MarshalEnv_LINK_iff (ifs : list (string * Interface)) (u : Update)
    (v : string) :
  "IPMON_LINK=" +:+ v ∈ MarshalEnv_ranging ifs u
  ↔ v ≠ "" ∧ v = Update_Link u.
Proof.
  split.
  - intros Hs.
    apply MarshalEnv_entries in Hs
      as [Hs|[[rest Hs]|[[rest Hs]|[[rest Hs]|[Hne Hs]]]]];
      [|key_eq Hs..].
    + unfold MarshalEnv_head in Hs.
      repeat case_match; repeat case_bool_decide; in_list Hs; key_eq Hs.
    + done.
  - intros [Hne ->]. apply sort_facts.elem_of_Strings.
    unfold MarshalEnv_unsorted. cbv zeta.
    rewrite bool_decide_eq_true_2 by done.
    rewrite !elem_of_app. right. right. left.
    by apply list_elem_of_singleton.
Qed.

(** The seven keys that describe the triggering change appear in the
    output exactly as the fields of the update dictate, whatever the
    interfaces are named and whatever the routes are: [IPMON_TYPE] always,
    with the type; [IPMON_CHANGE] with the first change tag only;
    [IPMON_ADDR] and [IPMON_MASK] when the update has an address;
    [IPMON_GW], [IPMON_SRC] and [IPMON_LINK] when the field is not empty. *)
Theorem MarshalEnv_change_keys (ifs : list (string * Interface)) (u : Update)
    (v : string) :
  ("IPMON_TYPE=" +:+ v ∈ MarshalEnv_ranging ifs u ↔ v = Update_Type u)
  ∧ ("IPMON_CHANGE=" +:+ v ∈ MarshalEnv_ranging ifs u
     ↔ head (Update_Change u) = Some v)
  ∧ ("IPMON_ADDR=" +:+ v ∈ MarshalEnv_ranging ifs u
     ↔ Address_Address <$> Update_Address u = Some v)
  ∧ ("IPMON_MASK=" +:+ v ∈ MarshalEnv_ranging ifs u
     ↔ pretty ∘ Address_CIDR <$> Update_Address u = Some v)
  ∧ ("IPMON_GW=" +:+ v ∈ MarshalEnv_ranging ifs u
     ↔ v ≠ "" ∧ v = Update_Gateway u)
  ∧ ("IPMON_SRC=" +:+ v ∈ MarshalEnv_ranging ifs u
     ↔ v ≠ "" ∧ v = Update_Source u)
  ∧ ("IPMON_LINK=" +:+ v ∈ MarshalEnv_ranging ifs u
     ↔ v ≠ "" ∧ v = Update_Link u).
Proof.
  split; [apply MarshalEnv_TYPE_iff|].
  split; [apply MarshalEnv_CHANGE_iff|].
  split; [apply MarshalEnv_ADDR_iff|].
  split; [apply MarshalEnv_MASK_iff|].
  split; [apply MarshalEnv_GW_iff|].
  split; [apply MarshalEnv_SRC_iff|].
  apply MarshalEnv_LINK_iff.
Qed.

End Keys.

(** ** The entries of the environment *)

Section Entries.
Context `{!net.Codec}.

Ltac in_list H :=
  rewrite ?elem_of_app, ?elem_of_cons, ?elem_of_nil in H;
  destruct_or? H; try done.

Ltac is_entry :=
  subst; split; [reflexivity|];
  rewrite ?occurs_app; cbn; by rewrite ?orb_true_r.

Lemma MarshalEnv_addr_isEntry (n : string) (a : Address) (s : string) :
  s ∈ MarshalEnv_addr n a → isEntry s.
Proof.
  unfold MarshalEnv_addr. intros Hs.
  apply elem_of_app in Hs as [Hs|Hs];
    repeat case_match; in_list Hs; is_entry.
Qed.

Lemma MarshalEnv_ranging_isEntry (ifs : list (string * Interface))
    (u : Update) (s : string) :
  s ∈ MarshalEnv_ranging ifs u → isEntry s.
Proof.
  intros Hs. unfold MarshalEnv_ranging in Hs.
  rewrite sort_facts.elem_of_Strings in Hs.
  unfold MarshalEnv_unsorted in Hs. cbv zeta in Hs.
  apply elem_of_app in Hs as [Hs|Hs].
  { unfold MarshalEnv_head in Hs.
    repeat case_match; repeat case_bool_decide; in_list Hs; is_entry. }
  apply elem_of_app in Hs as [Hs|Hs].
  { apply list_elem_of_In, in_flat_map in Hs as ([n inf] & _ & Hs).
    apply list_elem_of_In in Hs. unfold MarshalEnv_iface in Hs.
    apply elem_of_app in Hs as [Hs|Hs].
    - apply list_elem_of_In, in_flat_map in Hs as (a & _ & Hs).
      by apply list_elem_of_In, MarshalEnv_addr_isEntry in Hs.
    - case_match; in_list Hs; is_entry. }
  apply elem_of_app in Hs as [Hs|Hs].
  { case_bool_decide; in_list Hs; is_entry. }
  unfold MarshalEnv_defRouteIPv4, MarshalEnv_defRouteIPv6 in Hs.
  apply elem_of_app in Hs as [Hs|Hs];
    repeat case_match; in_list Hs; is_entry.
Qed.

(** Every entry of the output begins [IPMON_] and has an equals sign,
    whatever the update holds. *)
Theorem MarshalEnv_entries_shape (ifs : list (string * Interface)) (u : Update) :
  Forall isEntry (MarshalEnv_ranging ifs u).
Proof.
  apply Forall_forall. intros s. apply MarshalEnv_ranging_isEntry.
Qed.

Lemma MarshalEnv_iface_in_output (ifs : list (string * Interface))
    (u : Update) (n : string) (inf : Interface) (s : string) :
  (n, inf) ∈ ifs → s ∈ MarshalEnv_iface n inf → s ∈ MarshalEnv_ranging ifs u.
Proof.
  intros Hn Hs. apply sort_facts.elem_of_Strings.
  unfold MarshalEnv_unsorted.
  apply elem_of_app; right. apply elem_of_app; left.
  apply list_elem_of_In, in_flat_map. exists (n, inf).
  split; by apply list_elem_of_In.
Qed.

Lemma IsGlobalUnicast_To16 (ip : net.IP) :
  net.IsGlobalUnicast ip = true → net.To4 ip = None →
  net.nonnil (net.To16 ip) = true.
Proof.
  unfold net.IsGlobalUnicast, net.To4, net.To16. intros Hg H4.
  destruct (net.len ip =? net.IPv4len)%nat eqn:E4.
  { subst. apply Nat.eqb_eq in E4. discriminate E4. }
  destruct (net.len ip =? net.IPv6len)%nat eqn:E6; [|done].
  destruct ip; [done|]. apply Nat.eqb_eq in E6. discriminate E6.
Qed.

(** For every interface that the map yields the output says whether it is
    up, and it holds whatever is appended for the addresses of the
    interface.  For an address whose text parses to a global unicast
    address that is: for an IPv4 address the [IPMON_IPV4] entry and its
    mask, for an IPv6 address that is not unique-local the [IPMON_IPV6]
    entry and its mask, preceded by the lifetime entry exactly when the
    valid lifetime is positive. *)
Theorem MarshalEnv_interface_entries
    (ifs : list (string * Interface)) (u : Update)
    (n : string) (inf : Interface) :
  (n, inf) ∈ ifs →
  "IPMON_UP_" +:+ n +:+ (if Interface_Up inf then "=1" else "=0")
    ∈ MarshalEnv_ranging ifs u
  ∧ ∀ a, a ∈ Interface_Addr inf →
      (∀ s, s ∈ MarshalEnv_addr n a → s ∈ MarshalEnv_ranging ifs u)
      ∧ (net.IsGlobalUnicast (net.ParseIP (Address_Address a)) = true →
         net.nonnil (net.To4 (net.ParseIP (Address_Address a))) = true →
         MarshalEnv_addr n a
         = (if 0 <? netlink.ValidLft (Address_N a)
            then ["IPMON_IPV4_TTL_" +:+ n +:+ "="
                    +:+ pretty (netlink.ValidLft (Address_N a))]
            else [])
           ++ ["IPMON_IPV4_" +:+ n +:+ "=" +:+ Address_Address a;
               "IPMON_IPV4_MASK_" +:+ n +:+ "=" +:+ pretty (Address_CIDR a)])
      ∧ (net.IsGlobalUnicast (net.ParseIP (Address_Address a)) = true →
         net.To4 (net.ParseIP (Address_Address a)) = None →
         net.IsPrivate (net.ParseIP (Address_Address a)) = false →
         MarshalEnv_addr n a
         = (if 0 <? netlink.ValidLft (Address_N a)
            then ["IPMON_IPV6_TTL_" +:+ n +:+ "="
                    +:+ pretty (netlink.ValidLft (Address_N a))]
            else [])
           ++ ["IPMON_IPV6_" +:+ n +:+ "=" +:+ Address_Address a;
               "IPMON_IPV6_MASK_" +:+ n +:+ "=" +:+ pretty (Address_CIDR a)]).
Proof.
  intros Hn. split.
  { apply (MarshalEnv_iface_in_output ifs u n inf); [done|].
    unfold MarshalEnv_iface. apply elem_of_app; right.
    destruct (Interface_Up inf); by apply list_elem_of_singleton. }
  intros a Ha. split; [|split].
  - intros s Hs. apply (MarshalEnv_iface_in_output ifs u n inf); [done|].
    unfold MarshalEnv_iface. apply elem_of_app; left.
    apply list_elem_of_In, in_flat_map. exists a.
    split; by apply list_elem_of_In.
  - intros Hg H4.
    assert (Hll : net.IsLinkLocalUnicast (net.ParseIP (Address_Address a)) = false)
      by (by apply net_facts.IsGlobalUnicast_excludes in Hg as (_ & _ & _ & ?)).
    unfold MarshalEnv_addr. by rewrite Hll, Hg, H4.
  - intros Hg H4 Hp.
    assert (Hll : net.IsLinkLocalUnicast (net.ParseIP (Address_Address a)) = false)
      by (by apply net_facts.IsGlobalUnicast_excludes in Hg as (_ & _ & _ & ?)).
    unfold MarshalEnv_addr.
    by rewrite Hll, Hg, H4, (IsGlobalUnicast_To16 _ Hg H4), Hp.
Qed.

(** An interface address whose text does not parse, or parses to something
    that is neither 4 nor 16 bytes long, is passed over in silence: the
    marshaller appends nothing for it. *)
Theorem MarshalEnv_addr_unparseable (n : string) (a : Address) :
  net.len (net.ParseIP (Address_Address a)) ≠ net.IPv4len →
  net.len (net.ParseIP (Address_Address a)) ≠ net.IPv6len →
  MarshalEnv_addr n a = [].
Proof.
  intros H4 H6. unfold MarshalEnv_addr.
  apply Nat.eqb_neq in H4, H6.
  assert (Hto4 : net.To4 (net.ParseIP (Address_Address a)) = None)
    by (unfold net.To4; by rewrite H4, H6).
  assert (Hll : net.IsLinkLocalUnicast (net.ParseIP (Address_Address a)) = false)
    by (unfold net.IsLinkLocalUnicast; by rewrite Hto4, H6).
  assert (Hg : net.IsGlobalUnicast (net.ParseIP (Address_Address a)) = false)
    by (unfold net.IsGlobalUnicast; by rewrite H4, H6).
  by rewrite Hll, Hg.
Qed.

Lemma fold_left_filter_skip {A S} (f : S → A → S) (p : A → bool)
    (l : list A) (st : S) :
  (∀ st x, p x = false → f st x = st) →
  fold_left f (List.filter p l) st = fold_left f l st.
Proof.
  intros Hskip. revert st. induction l as [|x l IH]; intros st; [done|].
  cbn. destruct (p x) eqn:E; cbn; [apply IH|].
  rewrite (Hskip st x E). apply IH.
Qed.

(** Only routes without destination prefix whose protocol field is 4 or 6
    matter to the marshaller: dropping all other routes from the update
    leaves the output as it is. *)
Theorem MarshalEnv_other_routes_ignored
    (ifs : list (string * Interface)) (u : Update) :
  MarshalEnv_ranging ifs (set_Routes (List.filter isCandidate (Update_Routes u)) u)
  = MarshalEnv_ranging ifs u.
Proof.
  unfold MarshalEnv_ranging, MarshalEnv_unsorted. cbn [Update_Routes set_Routes].
  assert (Hd : MarshalEnv_defRoutes (List.filter isCandidate (Update_Routes u))
               = MarshalEnv_defRoutes (Update_Routes u)).
  { unfold MarshalEnv_defRoutes. apply fold_left_filter_skip.
    intros [d4 d6] r Hr. unfold isCandidate in Hr. unfold MarshalEnv_route.
    destruct (netlink.Dst (Route_route r)); [done|].
    rewrite bool_decide_eq_true_2 in Hr by done. cbn in Hr.
    apply orb_false_elim in Hr as [-> ->]. done. }
  by rewrite Hd.
Qed.

End Entries.

(** ** What a derived update looks like in the environment *)

Section DerivedEnv.
Context `{!net.Codec}.

(** A snapshot carries no annotation. *)
Lemma genUpdate_fresh (k : Kernel) (last : option Update) :
  Update_Type (genUpdate k last) = ""
  ∧ Update_Change (genUpdate k last) = []
  ∧ Update_Link (genUpdate k last) = ""
  ∧ Update_Address (genUpdate k last) = None
  ∧ Update_Gateway (genUpdate k last) = ""
  ∧ Update_Source (genUpdate k last) = "".
Proof.
  unfold genUpdate. cbn.
  by destruct (fold_left (genUpdate_link k) (LinkList k) (∅, ∅)).
Qed.

Lemma addrUpdate_fields (k : Kernel) (u : Update) (a : netlink.AddrUpdate) :
  Update_Type (fst (addrUpdate k u a)) = "address"
  ∧ Update_Change (fst (addrUpdate k u a))
    = [if netlink.NewAddr a then "add" else "delete"]
  ∧ Update_Address (fst (addrUpdate k u a))
    = Some {| Address_Address :=
                net.IP_String (net.IPNet_IP (netlink.LinkAddress a));
              Address_CIDR :=
                fst (net.Size (net.IPNet_Mask (netlink.LinkAddress a)));
              Address_N := zero_Addr |}
  ∧ Update_Link (fst (addrUpdate k u a))
    = default (Update_Link u)
        (linkName (LinkByIndex k (netlink.AddrUpdate_LinkIndex a)))
  ∧ Update_Gateway (fst (addrUpdate k u a)) = Update_Gateway u
  ∧ Update_Source (fst (addrUpdate k u a)) = Update_Source u.
Proof.
  unfold addrUpdate. cbn [fst].
  destruct (linkName _), (netlink.NewAddr a); done.
Qed.

Lemma linkUpdate_fields (u : Update) (a : netlink.LinkUpdate) :
  Update_Type (fst (linkUpdate u a)) = "link"
  ∧ Update_Link (fst (linkUpdate u a))
    = default (Update_Link u) (linkName (netlink.LinkUpdate_Link a))
  ∧ Update_Address (fst (linkUpdate u a)) = Update_Address u
  ∧ Update_Gateway (fst (linkUpdate u a)) = Update_Gateway u
  ∧ Update_Source (fst (linkUpdate u a)) = Update_Source u.
Proof.
  unfold linkUpdate.
  destruct (linkName _), (Z.land _ unix.IFF_UP =? 0); done.
Qed.

Lemma routeUpdate_fields (k : Kernel) (u : Update) (a : netlink.RouteUpdate) :
  let r := netlink.RouteUpdate_Route a in
  Update_Type (fst (routeUpdate k u a))
  = match netlink.Dst r with
    | Some _ => "route"
    | None => "default_route"
    end
  ∧ Update_Change (fst (routeUpdate k u a))
    = (if netlink.RouteUpdate_Type a =? unix.RTM_NEWROUTE then ["add"]
       else if netlink.RouteUpdate_Type a =? unix.RTM_DELROUTE then ["delete"]
       else Update_Change u)
  ∧ Update_Address (fst (routeUpdate k u a))
    = match netlink.Dst r with
      | Some dst =>
          Some {| Address_Address := net.IP_String (net.IPNet_IP dst);
                  Address_CIDR := fst (net.Size (net.IPNet_Mask dst));
                  Address_N := zero_Addr |}
      | None => Update_Address u
      end
  ∧ Update_Gateway (fst (routeUpdate k u a))
    = (if net.nonnil (netlink.Gw r) then net.IP_String (netlink.Gw r)
       else Update_Gateway u)
  ∧ Update_Source (fst (routeUpdate k u a))
    = (if net.nonnil (netlink.Src r) then net.IP_String (netlink.Src r)
       else Update_Source u)
  ∧ Update_Link (fst (routeUpdate k u a))
    = default (Update_Link u) (linkName (LinkByIndex k (netlink.ILinkIndex r))).
Proof.
  intros r. unfold routeUpdate. fold r. cbv zeta.
  repeat case_match; done.
Qed.

(** An address change on a fresh snapshot shows in the environment as
    type [address], change [add] or [delete], the address and its prefix
    length, the name of the link when its index resolves to a link with a
    name, and neither gateway nor source. *)
Theorem addrUpdate_env (k : Kernel) (last : option Update)
    (a : netlink.AddrUpdate) (ifs : list (string * Interface)) (v : string) :
  let env := MarshalEnv_ranging ifs (fst (addrUpdate k (genUpdate k last) a)) in
  ("IPMON_TYPE=" +:+ v ∈ env ↔ v = "address")
  ∧ ("IPMON_CHANGE=" +:+ v ∈ env
     ↔ v = if netlink.NewAddr a then "add" else "delete")
  ∧ ("IPMON_ADDR=" +:+ v ∈ env
     ↔ v = net.IP_String (net.IPNet_IP (netlink.LinkAddress a)))
  ∧ ("IPMON_MASK=" +:+ v ∈ env
     ↔ v = pretty (fst (net.Size (net.IPNet_Mask (netlink.LinkAddress a)))))
  ∧ ("IPMON_LINK=" +:+ v ∈ env
     ↔ v ≠ ""
       ∧ linkName (LinkByIndex k (netlink.AddrUpdate_LinkIndex a)) = Some v)
  ∧ ("IPMON_GW=" +:+ v ∉ env)
  ∧ ("IPMON_SRC=" +:+ v ∉ env).
Proof.
  intros env. subst env.
  destruct (genUpdate_fresh k last) as (_ & _ & Hl & _ & Hg & Hs).
  destruct (addrUpdate_fields k (genUpdate k last) a)
    as (Et & Ec & Ea & El & Eg & Es).
  rewrite MarshalEnv_TYPE_iff, MarshalEnv_CHANGE_iff, MarshalEnv_ADDR_iff,
    MarshalEnv_MASK_iff, MarshalEnv_LINK_iff, MarshalEnv_GW_iff,
    MarshalEnv_SRC_iff.
  rewrite Et, Ec, Ea, El, Eg, Es, Hl, Hg, Hs. cbn.
  destruct (linkName _) as [name|]; cbn; naive_solver.
Qed.

(** A notable link change on a fresh snapshot shows in the environment as
    type [link] with change [up] when the link is now up and [down] when
    it is not; no other changed flag reaches the environment. *)
Theorem linkUpdate_env (k : Kernel) (last : option Update)
    (a : netlink.LinkUpdate) (ifs : list (string * Interface)) (v : string) :
  snd (linkUpdate (genUpdate k last) a) = true →
  let env := MarshalEnv_ranging ifs (fst (linkUpdate (genUpdate k last) a)) in
  ("IPMON_TYPE=" +:+ v ∈ env ↔ v = "link")
  ∧ ("IPMON_CHANGE=" +:+ v ∈ env
     ↔ v = if Z.testbit (netlink.LinkUpdate_Flags a) 0 then "up" else "down")
  ∧ ("IPMON_LINK=" +:+ v ∈ env
     ↔ v ≠ "" ∧ linkName (netlink.LinkUpdate_Link a) = Some v).
Proof.
  intros Hn env. subst env.
  destruct (genUpdate_fresh k last) as (_ & Hc & Hl & _).
  destruct (linkUpdate_fields (genUpdate k last) a) as (Et & El & _).
  rewrite MarshalEnv_TYPE_iff, MarshalEnv_CHANGE_iff, MarshalEnv_LINK_iff.
  rewrite Et, El, Hl, linkUpdate_Change, Hc.
  rewrite linkUpdate_notable in Hn.
  cbn [app flat_map trackedFlags]. unfold testFlag at 1.
  rewrite !land_IFF_UP_testbit, Hn. cbn [negb].
  destruct (Z.testbit (netlink.LinkUpdate_Flags a) 0); cbn [negb head app];
    destruct (linkName _) as [name|]; cbn; naive_solver.
Qed.

(** A route change on a fresh snapshot shows in the environment as type
    [route], or [default_route] when the record has no destination; change
    [add] or [delete] for the two message types and no change entry for any
    other; the destination and its prefix length when there is one; the
    gateway and the source when the record has them and their text is not
    empty. *)
Theorem routeUpdate_env (k : Kernel) (last : option Update)
    (a : netlink.RouteUpdate) (ifs : list (string * Interface)) (v : string) :
  let r := netlink.RouteUpdate_Route a in
  let env := MarshalEnv_ranging ifs (fst (routeUpdate k (genUpdate k last) a)) in
  ("IPMON_TYPE=" +:+ v ∈ env
   ↔ v = match netlink.Dst r with
         | Some _ => "route"
         | None => "default_route"
         end)
  ∧ ("IPMON_CHANGE=" +:+ v ∈ env
     ↔ (netlink.RouteUpdate_Type a = unix.RTM_NEWROUTE ∧ v = "add")
       ∨ (netlink.RouteUpdate_Type a = unix.RTM_DELROUTE ∧ v = "delete"))
  ∧ ("IPMON_ADDR=" +:+ v ∈ env
     ↔ ∃ dst, netlink.Dst r = Some dst
              ∧ v = net.IP_String (net.IPNet_IP dst))
  ∧ ("IPMON_MASK=" +:+ v ∈ env
     ↔ ∃ dst, netlink.Dst r = Some dst
              ∧ v = pretty (fst (net.Size (net.IPNet_Mask dst))))
  ∧ ("IPMON_GW=" +:+ v ∈ env
     ↔ v ≠ "" ∧ net.nonnil (netlink.Gw r) = true
       ∧ v = net.IP_String (netlink.Gw r))
  ∧ ("IPMON_SRC=" +:+ v ∈ env
     ↔ v ≠ "" ∧ net.nonnil (netlink.Src r) = true
       ∧ v = net.IP_String (netlink.Src r))
  ∧ ("IPMON_LINK=" +:+ v ∈ env
     ↔ v ≠ "" ∧ linkName (LinkByIndex k (netlink.ILinkIndex r)) = Some v).
Proof.
  intros r env. subst env.
  destruct (genUpdate_fresh k last) as (_ & Hc & Hl & Ha & Hg & Hs).
  destruct (routeUpdate_fields k (genUpdate k last) a)
    as (Et & Ec & Ea & Eg & Es & El). fold r in Et, Ec, Ea, Eg, Es, El.
  rewrite MarshalEnv_TYPE_iff, MarshalEnv_CHANGE_iff, MarshalEnv_ADDR_iff,
    MarshalEnv_MASK_iff, MarshalEnv_LINK_iff, MarshalEnv_GW_iff,
    MarshalEnv_SRC_iff.
  rewrite Et, Ec, Ea, Eg, Es, El, Hc, Hl, Ha, Hg, Hs.
  unfold unix.RTM_NEWROUTE, unix.RTM_DELROUTE.
  split; [done|].
  split.
  { destruct (Z.eqb_spec (netlink.RouteUpdate_Type a) 24);
      [cbn; naive_solver lia|].
    destruct (Z.eqb_spec (netlink.RouteUpdate_Type a) 25); cbn;
      naive_solver lia. }
  split; [destruct (netlink.Dst r); cbn; naive_solver|].
  split; [destruct (netlink.Dst r); cbn; naive_solver|].
  split; [destruct (net.nonnil (netlink.Gw r)); naive_solver|].
  split; [destruct (net.nonnil (netlink.Src r)); naive_solver|].
  destruct (linkName _); cbn; naive_solver.
Qed.

End DerivedEnv.

(** ** The event loop, event by event *)

Section LoopExact.
Context `{!net.Codec}.

Lemma Monitor_loop_calls_exact (interval : Z) (evs : list (Kernel * Event))
    (calls : list Update) (lastUpdate : Update) :
  snd (Monitor_loop interval calls lastUpdate evs)
  = calls ++ omap (react interval) (until_return evs).
Proof.
  revert calls lastUpdate.
  induction evs as [|[k ev] evs IH]; intros calls lastUpdate.
  { cbn. by rewrite app_nil_r. }
  cbn [Monitor_loop until_return snd].
  destruct ev as [|[a|]|[l|]|[r|]|n|]; cbn [closing omap list_omap];
    try (cbn; by rewrite app_nil_r); unfold react at 1; cbn [fst snd].
  - change (genUpdate k (Some lastUpdate)) with (genUpdate k None).
    destruct (addrUpdate k (genUpdate k None) a) as [u notable].
    rewrite IH. destruct notable; cbn; by rewrite <- ?app_assoc.
  - change (genUpdate k (Some lastUpdate)) with (genUpdate k None).
    destruct (linkUpdate (genUpdate k None) l) as [u notable].
    rewrite IH. destruct notable; cbn; by rewrite <- ?app_assoc.
  - change (genUpdate k (Some lastUpdate)) with (genUpdate k None).
    destruct (routeUpdate k (genUpdate k None) r) as [u notable].
    rewrite IH. destruct notable; cbn; by rewrite <- ?app_assoc.
  - by rewrite IH.
  - destruct (0 <? interval); rewrite IH; cbn; by rewrite <- ?app_assoc.
Qed.

Lemma react_is_Some (interval : Z) (k : Kernel) (ev : Event) :
  is_Some (react interval (k, ev))
  ↔ match ev with
    | AddrUpd (Some _) => True
    | LinkUpd (Some l) => Z.testbit (netlink.LinkUpdate_Change l) 0 = true
    | RouteUpd (Some r) =>
        (netlink.Scope (netlink.RouteUpdate_Route r) = netlink.SCOPE_UNIVERSE
         ∨ netlink.Scope (netlink.RouteUpdate_Route r) = netlink.SCOPE_LINK)
        ∧ netlink.Table (netlink.RouteUpdate_Route r) = 254
    | TmrCh => 0 < interval
    | _ => False
    end.
Proof.
  unfold react. cbn [fst snd].
  destruct ev as [|[a|]|[l|]|[r|]|n|];
    try (split; [by intros [? ?]|done]).
  - pose proof (linkUpdate_notable (genUpdate k None) l) as Hn.
    destruct (linkUpdate (genUpdate k None) l) as [u notable]. cbn [snd] in Hn.
    subst notable.
    destruct (Z.testbit _ 0); (split; [intros [? ?]; by simplify_eq|]);
      intros; by eauto.
  - assert (Hn : snd (routeUpdate k (genUpdate k None) r)
                 = (((netlink.Scope (netlink.RouteUpdate_Route r) =? netlink.SCOPE_UNIVERSE)
                     || (netlink.Scope (netlink.RouteUpdate_Route r) =? netlink.SCOPE_LINK))
                    && (netlink.Table (netlink.RouteUpdate_Route r) =? 254))).
    { unfold routeUpdate.
      destruct (netlink.Scope _ =? netlink.SCOPE_UNIVERSE),
        (netlink.Scope _ =? netlink.SCOPE_LINK),
        (netlink.Table _ =? 254); done. }
    destruct (routeUpdate k (genUpdate k None) r) as [u notable]. cbn [snd] in Hn.
    subst notable.
    destruct (Z.eqb_spec (netlink.Scope (netlink.RouteUpdate_Route r))
                netlink.SCOPE_UNIVERSE),
      (Z.eqb_spec (netlink.Scope (netlink.RouteUpdate_Route r))
         netlink.SCOPE_LINK),
      (Z.eqb_spec (netlink.Table (netlink.RouteUpdate_Route r)) 254); cbn;
      (split; [intros [? ?]; simplify_eq; tauto|]); intros; by eauto || tauto.
  - destruct (Z.ltb_spec 0 interval);
      (split; [intros [? ?]; simplify_eq; done || lia|]); intros;
      eauto || lia.
Qed.

Lemma Monitor_calls_exact (subs : Subscriptions) (k0 : Kernel)
    (interval : Z) (evs : list (Kernel * Event)) :
  subscribed subs →
  snd (Monitor subs k0 interval evs)
  = set_Type "init" (genUpdate k0 None)
    :: (if ticker_panics interval then []
        else omap (react interval) (until_return evs)).
Proof.
  intros Hs. rewrite (Monitor_subscribed _ _ _ _ Hs).
  destruct (ticker_panics interval); [done|].
  by rewrite Monitor_loop_calls_exact.
Qed.

(** The calls of the handler are nothing, or the initial update alone, or
    those of the loop. *)
Lemma Monitor_calls_cases (subs : Subscriptions) (k0 : Kernel)
    (interval : Z) (evs : list (Kernel * Event)) :
  snd (Monitor subs k0 interval evs) = []
  ∨ snd (Monitor subs k0 interval evs)
    `prefix_of` set_Type "init" (genUpdate k0 None)
                :: omap (react interval) (until_return evs).
Proof.
  assert (Hd : subscribed subs ∨ ¬ subscribed subs).
  { unfold subscribed.
    destruct (NeighSubscribeWithOptions subs), (AddrSubscribe subs),
      (RouteSubscribe subs), (LinkSubscribe subs); naive_solver. }
  destruct Hd as [Hs|Hn].
  - right. rewrite (Monitor_calls_exact _ _ _ _ Hs).
    destruct (ticker_panics interval); [|done].
    by apply prefix_cons, prefix_nil.
  - left. destruct (Monitor_unsubscribed subs k0 interval evs Hn)
      as (err & -> & _). done.
Qed.

(** Once the four subscriptions stand, what the handler is given is the
    initial snapshot followed, when the ticker can be made, for each event
    before the one on which the loop returns, by the update of that event
    alone: nothing is carried from one event to the next.  The ticker can
    be made for every interval below 9223372037 seconds; when it cannot,
    the initial snapshot is all the handler is given.  An event has an
    update for the handler exactly when it is an address record, a link
    record with up/down among its changed bits, a route record of the main
    table with scope universe or link, or a tick while the interval is
    positive. *)
Theorem Monitor_calls (subs : Subscriptions) (k0 : Kernel) (interval : Z)
    (evs : list (Kernel * Event)) :
  subscribed subs →
  snd (Monitor subs k0 interval evs)
  = set_Type "init" (genUpdate k0 None)
    :: (if ticker_panics interval then []
        else omap (react interval) (until_return evs))
  ∧ (interval < 9223372037 → ticker_panics interval = false)
  ∧ ∀ k ev,
      is_Some (react interval (k, ev))
      ↔ match ev with
        | AddrUpd (Some _) => True
        | LinkUpd (Some l) => Z.testbit (netlink.LinkUpdate_Change l) 0 = true
        | RouteUpd (Some r) =>
            (netlink.Scope (netlink.RouteUpdate_Route r) = netlink.SCOPE_UNIVERSE
             ∨ netlink.Scope (netlink.RouteUpdate_Route r) = netlink.SCOPE_LINK)
            ∧ netlink.Table (netlink.RouteUpdate_Route r) = 254
        | TmrCh => 0 < interval
        | _ => False
        end.
Proof.
  intros Hs. split; [|split; [apply ticker_panics_small|apply react_is_Some]].
  rewrite (Monitor_subscribed _ _ _ _ Hs).
  destruct (ticker_panics interval); [done|].
  by rewrite Monitor_loop_calls_exact.
Qed.

Lemma react_fresh (interval : Z) (k : Kernel) (ev : Event) (u : Update) :
  react interval (k, ev) = Some u →
  Update_Interfaces u = Update_Interfaces (genUpdate k None)
  ∧ Update_Routes u = Update_Routes (genUpdate k None)
  ∧ Update_Type u ∈ ["address"; "link"; "route"; "default_route"; "interval"].
Proof.
  unfold react. cbn [fst snd].
  destruct ev as [|[a|]|[l|]|[r|]|n|]; try done.
  - destruct (addrUpdate_fields k (genUpdate k None) a) as (Et & _).
    assert (Hk : Update_Interfaces (fst (addrUpdate k (genUpdate k None) a))
                 = Update_Interfaces (genUpdate k None)
                 ∧ Update_Routes (fst (addrUpdate k (genUpdate k None) a))
                   = Update_Routes (genUpdate k None)).
    { unfold addrUpdate. cbn [fst].
      destruct (linkName _), (netlink.NewAddr a); done. }
    destruct (addrUpdate k (genUpdate k None) a) as [u' notable].
    cbn [fst] in *. destruct notable; intros [= <-].
    rewrite Et. destruct Hk. repeat split; try done. set_solver.
  - destruct (linkUpdate_fields (genUpdate k None) l) as (Et & _).
    assert (Hk : Update_Interfaces (fst (linkUpdate (genUpdate k None) l))
                 = Update_Interfaces (genUpdate k None)
                 ∧ Update_Routes (fst (linkUpdate (genUpdate k None) l))
                   = Update_Routes (genUpdate k None)).
    { unfold linkUpdate.
      destruct (linkName _), (Z.land _ unix.IFF_UP =? 0); done. }
    destruct (linkUpdate (genUpdate k None) l) as [u' notable].
    cbn [fst] in *. destruct notable; intros [= <-].
    rewrite Et. destruct Hk. repeat split; try done. set_solver.
  - destruct (routeUpdate_fields k (genUpdate k None) r) as (Et & _).
    assert (Hk : Update_Interfaces (fst (routeUpdate k (genUpdate k None) r))
                 = Update_Interfaces (genUpdate k None)
                 ∧ Update_Routes (fst (routeUpdate k (genUpdate k None) r))
                   = Update_Routes (genUpdate k None)).
    { unfold routeUpdate. cbv zeta. repeat case_match; done. }
    destruct (routeUpdate k (genUpdate k None) r) as [u' notable].
    cbn [fst] in *. destruct notable; intros [= <-].
    rewrite Et. destruct Hk. repeat split; try done.
    destruct (netlink.Dst _); set_solver.
  - destruct (0 <? interval); intros [= <-]. repeat split; try done.
    cbn. set_solver.
Qed.

(** Every update the handler is given holds a full snapshot taken for it:
    its interfaces and routes are those [genUpdate] gives for the kernel
    state of the initial call or of one of the events, and its type is one
    of the six the engine knows. *)
Theorem Monitor_delivers_snapshots
    (subs : Subscriptions) (k0 : Kernel) (interval : Z)
    (evs : list (Kernel * Event)) (u : Update) :
  u ∈ snd (Monitor subs k0 interval evs) →
  (∃ k, k ∈ k0 :: map fst evs
        ∧ Update_Interfaces u = Update_Interfaces (genUpdate k None)
        ∧ Update_Routes u = Update_Routes (genUpdate k None))
  ∧ Update_Type u
      ∈ ["init"; "address"; "link"; "route"; "default_route"; "interval"].
Proof.
  intros Hu.
  destruct (Monitor_calls_cases subs k0 interval evs) as [Hc|Hc].
  { rewrite Hc in Hu. by apply elem_of_nil in Hu. }
  destruct Hc as [rest Hc].
  assert (Hu' : u ∈ set_Type "init" (genUpdate k0 None)
                    :: omap (react interval) (until_return evs)).
  { rewrite Hc. apply elem_of_app. by left. }
  clear Hu Hc. rename Hu' into Hu.
  apply elem_of_cons in Hu as [->|Hu].
  { split; [|set_solver]. exists k0. split; [by left|done]. }
  apply list_elem_of_omap in Hu as ([k ev] & Hin & Hr).
  assert (Hk : k ∈ map fst evs).
  { clear Hr. induction evs as [|e evs IH]; [by apply elem_of_nil in Hin|].
    cbn in Hin. destruct (closing (snd e)); [by apply elem_of_nil in Hin|].
    apply elem_of_cons in Hin as [<-|Hin]; [by left|]. right. by apply IH. }
  destruct (react_fresh interval k ev u Hr) as (Hi & Hro & Ht).
  split; [|set_solver]. exists k. split; [by right|done].
Qed.

End LoopExact.

(** ** The daemon *)

Module ipmond_facts.
Import ipmond.

Lemma cmdEnv_loop (environ acc : list string) :
  fold_left
    (λ env v, if strings.HasPrefix v "NOTIFY_SOCKET=" then env else env ++ [v])
    environ acc
  = acc ++ List.filter (λ v, negb (strings.HasPrefix v "NOTIFY_SOCKET="))
             environ.
Proof.
  revert acc. induction environ as [|v environ IH]; intros acc; cbn.
  { by rewrite app_nil_r. }
  rewrite IH. destruct (strings.HasPrefix v _); cbn; [done|].
  by rewrite <- app_assoc.
Qed.

Lemma isEntry_not_notify (s : string) :
  isEntry s → strings.HasPrefix s "NOTIFY_SOCKET=" = false.
Proof.
  intros [Hp _]. unfold strings.HasPrefix.
  destruct s as [|c s]; [done|]. cbn [String.prefix] in Hp |- *.
  destruct (Ascii.ascii_dec "I" c) as [<-|]; [|done].
  by destruct (Ascii.ascii_dec "N" "I").
Qed.

Lemma cmdEnv_spec (environ newEnv : list string) :
  Forall isEntry newEnv →
  cmdEnv environ newEnv
  = List.filter (λ v, negb (strings.HasPrefix v "NOTIFY_SOCKET=")) environ
    ++ newEnv
  ∧ Forall (λ v, strings.HasPrefix v "NOTIFY_SOCKET=" = false)
      (cmdEnv environ newEnv).
Proof.
  intros Hnew. unfold cmdEnv. rewrite cmdEnv_loop. cbn [app].
  split; [done|]. apply Forall_app. split.
  - apply Forall_forall. intros v Hv.
    apply list_elem_of_In, filter_In in Hv as [_ Hv].
    by apply negb_true_iff.
  - eapply Forall_impl; [exact Hnew|]. apply isEntry_not_notify.
Qed.

Ltac acts :=
  first
    [ exists []; split; [by rewrite app_nil_r|]
    | eexists; split; [rewrite <- ?app_assoc; cbn [app]; reflexivity|] ].

Lemma sdnotify_acts (h : Host) (state : string) (st : State) :
  ∃ acts,
    trace (sdnotify h state st) = trace st ++ acts
    ∧ Forall (notifies h state) acts
    ∧ (sdConn st = None → NOTIFY_SOCKET h = "" →
       acts = [] ∧ sdConn (sdnotify h state st) = None).
Proof.
  destruct st as [conn tr].
  unfold sdnotify, notifyOpen, connWrite, connClose, emit. cbn.
  destruct (String.eqb_spec (NOTIFY_SOCKET h) "") as [Hs|Hs].
  all: destruct conn as [c|]; cbn.
  all: repeat (case_match; simplify_eq/=).
  all: acts.
  all: repeat split; cbn; try lia; try done.
  all: try (repeat constructor; cbn; done).
  all: try (intros; simplify_eq; done).
  all: try congruence.
Qed.

Lemma filter_isCommand_notifies (h : Host) (state : string)
    (acts : list Effect) :
  Forall (notifies h state) acts → List.filter isCommand acts = [].
Proof.
  induction 1 as [|e acts He _ IH]; [done|]. cbn.
  destruct e; cbn in He |- *; done.
Qed.

Lemma replay_snoc (tr : list Effect) (e : Effect) :
  replay (tr ++ [e]) = replay_step (replay tr) e.
Proof. unfold replay. by rewrite fold_left_app. Qed.

Lemma length_filter_snoc {A} (p : A → bool) (l : list A) (x : A) :
  length (List.filter p (l ++ [x]))
  = (length (List.filter p l) + (if p x then 1 else 0))%nat.
Proof.
  rewrite List.filter_app, length_app. cbn. by destruct (p x).
Qed.

Lemma tidy_sdnotify (h : Host) (state : string) (st : State) :
  tidy st → tidy (sdnotify h state st).
Proof.
  destruct st as [conn tr]. unfold tidy.
  unfold sdnotify, notifyOpen, connWrite, connClose, emit. cbn.
  intros Ht. fold (replay tr) in Ht.
  destruct (String.eqb (NOTIFY_SOCKET h) ""); destruct conn as [c|]; cbn.
  all: repeat (case_match; simplify_eq/=).
  all: rewrite ?replay_snoc, ?length_filter_snoc, ?Ht; cbn.
  all: repeat first
         [ rewrite bool_decide_eq_true_2 by done
         | rewrite Nat.add_0_r
         | rewrite Nat.add_1_r
         | progress cbn ].
  all: done.
Qed.

Lemma tidy_command (e : Effect) (st : State) :
  isCommand e = true → tidy st → tidy (emit e st).
Proof.
  unfold tidy, emit. cbn [trace sdConn]. intros He Ht.
  rewrite replay_snoc, length_filter_snoc, Ht.
  destruct e; try done. cbn. by rewrite Nat.add_0_r.
Qed.

Section Handler.
Context `{!net.Codec}.

Lemma command_env (h : Host) (f : Flags) (upd : Update) :
  ∃ env,
    command h f upd
    = Command (cmdName f) (args f) env (if flgJson f then Some upd else None)
    ∧ env = List.filter (λ v, negb (strings.HasPrefix v "NOTIFY_SOCKET="))
              (Environ h)
            ++ MarshalEnv upd
    ∧ Forall (λ v, strings.HasPrefix v "NOTIFY_SOCKET=" = false) env.
Proof.
  eexists. split; [reflexivity|]. apply cmdEnv_spec.
  apply Forall_forall. intros s Hs. by eapply MarshalEnv_ranging_isEntry.
Qed.

Lemma commands_cons (h : Host) (f : Flags) (upd : Update)
    (calls : list Update) :
  commands h f (upd :: calls) = commands h f [upd] ++ commands h f calls.
Proof. unfold commands. by destruct (String.eqb _ _). Qed.

Lemma handler_trace (h : Host) (f : Flags) (rdy : bool) (st : State)
    (upd : Update) :
  ∃ acts,
    fst (handler h f (rdy, st) upd) = true
    ∧ trace (snd (handler h f (rdy, st) upd)) = trace st ++ acts
    ∧ List.filter isCommand acts = commands h f [upd]
    ∧ (tidy st → tidy (snd (handler h f (rdy, st) upd)))
    ∧ (NOTIFY_SOCKET h = "" → sdConn st = None →
       acts = commands h f [upd]
       ∧ sdConn (snd (handler h f (rdy, st) upd)) = None)
    ∧ (rdy = true →
       acts = commands h f [upd]
       ∧ sdConn (snd (handler h f (rdy, st) upd)) = sdConn st).
Proof.
  unfold handler, Ready, Status, commands.
  destruct (sdnotify_acts h ("STATUS=" +:+ "Running") st)
    as (a1 & E1 & N1 & U1).
  destruct (sdnotify_acts h "READY=1"
              (sdnotify h ("STATUS=" +:+ "Running") st))
    as (a2 & E2 & N2 & U2).
  apply filter_isCommand_notifies in N1, N2.
  destruct rdy, (String.eqb (cmdName f) "") eqn:Hc; cbn [fst snd emit trace sdConn map].
  - exists []. rewrite app_nil_r. naive_solver.
  - exists [command h f upd]. repeat split; try done.
    by apply tidy_command.
  - exists (a1 ++ a2). rewrite E2, E1, <- app_assoc, List.filter_app, N1, N2.
    repeat split; try done.
    + intros. by do 2 apply tidy_sdnotify.
    + destruct (U1 H1 H0) as [-> Hn]. by destruct (U2 Hn H0) as [-> _].
    + destruct (U1 H1 H0) as [-> Hn]. by destruct (U2 Hn H0) as [_ ->].
  - exists (a1 ++ a2 ++ [command h f upd]).
    rewrite E2, E1, <- !app_assoc, !List.filter_app, N1, N2.
    repeat split; try done.
    + intros. apply tidy_command; [done|]. by do 2 apply tidy_sdnotify.
    + destruct (U1 H1 H0) as [-> Hn]. by destruct (U2 Hn H0) as [-> _].
    + destruct (U1 H1 H0) as [-> Hn]. by destruct (U2 Hn H0) as [_ ->].
Qed.

Lemma handler_fold (h : Host) (f : Flags) (calls : list Update)
    (rdy : bool) (st : State) :
  ∃ acts,
    trace (snd (fold_left (handler h f) calls (rdy, st))) = trace st ++ acts
    ∧ List.filter isCommand acts = commands h f calls
    ∧ (tidy st → tidy (snd (fold_left (handler h f) calls (rdy, st))))
    ∧ (NOTIFY_SOCKET h = "" → sdConn st = None →
       acts = commands h f calls
       ∧ sdConn (snd (fold_left (handler h f) calls (rdy, st))) = None)
    ∧ (rdy = true →
       acts = commands h f calls
       ∧ sdConn (snd (fold_left (handler h f) calls (rdy, st))) = sdConn st).
Proof.
  revert rdy st.
  induction calls as [|upd calls IH]; intros rdy st; cbn [fold_left snd].
  { exists []. rewrite app_nil_r. unfold commands.
    destruct (String.eqb _ _); done. }
  destruct (handler_trace h f rdy st upd)
    as (a1 & Hr & E1 & C1 & T1 & U1 & R1).
  destruct (handler h f (rdy, st) upd) as [rdy1 st1]. cbn [fst snd] in *.
  subst rdy1.
  destruct (IH true st1) as (a2 & E2 & C2 & T2 & U2 & R2).
  destruct (R2 eq_refl) as [-> Hc2].
  exists (a1 ++ commands h f calls).
  rewrite E2, E1, <- app_assoc, List.filter_app, C1, C2, (commands_cons h f upd calls).
  repeat split; try done.
  - tauto.
  - destruct (U1 H0 H1) as [-> _]. done.
  - rewrite Hc2. by destruct (U1 H0 H1) as [_ ->].
  - by destruct (R1 H0) as [-> _].
  - rewrite Hc2. by destruct (R1 H0) as [_ ->].
Qed.

End Handler.

End ipmond_facts.

Section Daemon.
Context `{!net.Codec}.
Import ipmond ipmond_facts.

(** The environment of the command is the environment of the daemon
    without its [NOTIFY_SOCKET] entries, in the same order, followed by the
    entries of the update; no entry of it names [NOTIFY_SOCKET]. *)
Theorem cmdEnv_without_notify_socket (environ : list string)
    (ifs : list (string * Interface)) (u : Update) :
  let env := cmdEnv environ (MarshalEnv_ranging ifs u) in
  env = List.filter (λ v, negb (strings.HasPrefix v "NOTIFY_SOCKET="))
          environ
        ++ MarshalEnv_ranging ifs u
  ∧ Forall (λ v, strings.HasPrefix v "NOTIFY_SOCKET=" = false) env.
Proof.
  intros env. apply cmdEnv_spec.
  apply Forall_forall. intros s Hs. by eapply MarshalEnv_ranging_isEntry.
Qed.

(** One notification dials the socket of [NOTIFY_SOCKET] at most twice,
    writes the state and a line feed at most twice and closes at most
    once, and does nothing else.  Without a connection and without
    [NOTIFY_SOCKET] it does nothing; on an open connection whose write
    succeeds it writes once and keeps the connection. *)
Theorem sdnotify_effects (h : Host) (state : string) (st : State) :
  ∃ acts,
    trace (sdnotify h state st) = trace st ++ acts
    ∧ Forall (notifies h state) acts
    ∧ (length (List.filter isDial acts) ≤ 2)%nat
    ∧ (length (List.filter isWrite acts) ≤ 2)%nat
    ∧ (length (List.filter isClose acts) ≤ 1)%nat
    ∧ (sdConn st = None → NOTIFY_SOCKET h = "" →
       acts = [] ∧ sdConn (sdnotify h state st) = None)
    ∧ (∀ c, sdConn st = Some c →
            writes h (length (List.filter isWrite (trace st))) = true →
            acts = [ConnWrite c (state +:+ LF) true]
            ∧ sdConn (sdnotify h state st) = Some c).
Proof.
  destruct st as [conn tr].
  unfold sdnotify, notifyOpen, connWrite, connClose, emit. cbn.
  destruct (String.eqb_spec (NOTIFY_SOCKET h) "") as [Hs|Hs].
  all: destruct conn as [c|]; cbn.
  all: repeat (case_match; simplify_eq/=).
  all: acts.
  all: repeat split; cbn; try lia; try done.
  all: try (repeat constructor; cbn; done).
  all: try (intros; simplify_eq; done).
  all: try congruence.
Qed.

(** Whatever the host answers, the daemon uses the socket in order: it
    dials only while it holds no connection, writes to and closes only the
    connection it holds, and at the end [sdConn] is the connection the
    trace leaves open. *)
Theorem main_socket_discipline (h : Host) (f : Flags) (subs : Subscriptions)
    (k0 : Kernel) (evs : list (Kernel * Event)) :
  let st := main h f subs k0 evs in
  replay (trace st)
  = Some (sdConn st, length (List.filter isDial (trace st))).
Proof.
  intros st. subst st. unfold main.
  destruct (handler_fold h f (snd (Monitor subs k0 (flgInterval f) evs))
              false (Status h "Starting" start)) as (_ & _ & _ & T & _).
  apply T. by apply tidy_sdnotify.
Qed.

(** The daemon runs its command once for each update [Monitor] hands to
    the handler, in their order, with the environment of the update and
    the update on standard input when asked for, and not at all without a
    command name.  No command sees [NOTIFY_SOCKET].  When the daemon has no
    [NOTIFY_SOCKET] itself, the commands are all it does. *)
Theorem main_commands (h : Host) (f : Flags) (subs : Subscriptions)
    (k0 : Kernel) (evs : list (Kernel * Event)) :
  let calls := snd (Monitor subs k0 (flgInterval f) evs) in
  let tr := trace (main h f subs k0 evs) in
  List.filter isCommand tr
  = (if String.eqb (cmdName f) "" then [] else map (command h f) calls)
  ∧ (∀ name args env stdin,
       Command name args env stdin ∈ tr →
       Forall (λ v, strings.HasPrefix v "NOTIFY_SOCKET=" = false) env)
  ∧ (NOTIFY_SOCKET h = "" → tr = List.filter isCommand tr).
Proof.
  intros calls tr. subst tr. unfold main. fold calls.
  destruct (sdnotify_acts h ("STATUS=" +:+ "Starting") start)
    as (a0 & E0 & N0 & U0).
  destruct (handler_fold h f calls false (Status h "Starting" start))
    as (a1 & E1 & C1 & _ & U1 & _).
  unfold Status in E1 |- *. rewrite E1, E0. cbn [trace start app].
  rewrite List.filter_app, C1, (filter_isCommand_notifies _ _ _ N0).
  cbn [app]. split; [done|]. split.
  - intros name args env stdin Hin.
    assert (Hc : Command name args env stdin ∈ commands h f calls).
    { rewrite <- C1. apply list_elem_of_In, filter_In. split; [|done].
      apply list_elem_of_In. apply elem_of_app in Hin as [Hin|Hin]; [|done].
      eapply Forall_forall in N0; [|exact Hin]. done. }
    unfold commands in Hc. destruct (String.eqb _ _); [by apply elem_of_nil in Hc|].
    apply list_elem_of_fmap in Hc as (upd & Hc & _).
    destruct (command_env h f upd) as (env' & Hc' & _ & Henv).
    rewrite Hc' in Hc. by simplify_eq.
  - intros Hs. destruct (U0 eq_refl Hs) as [-> Hn].
    destruct (U1 Hs Hn) as [-> _]. done.
Qed.

(** Under a supervisor whose socket always answers, the daemon dials
    once, reports that it is starting, and, if the subscriptions stand,
    reports that it is running and ready once, before the first command;
    then it only runs commands.  When a subscription fails it never
    reports ready. *)
Theorem main_supervised (h : Host) (f : Flags) (subs : Subscriptions)
    (k0 : Kernel) (evs : list (Kernel * Event)) :
  NOTIFY_SOCKET h ≠ "" →
  (∀ n, dials h n = true) →
  (∀ n, writes h n = true) →
  let calls := snd (Monitor subs k0 (flgInterval f) evs) in
  trace (main h f subs k0 evs)
  = [Dial (NOTIFY_SOCKET h) true;
     ConnWrite 0 ("STATUS=Starting" +:+ LF) true]
    ++ match calls with
       | [] => []
       | _ :: _ =>
           [ConnWrite 0 ("STATUS=Running" +:+ LF) true;
            ConnWrite 0 ("READY=1" +:+ LF) true]
           ++ (if String.eqb (cmdName f) "" then []
               else map (command h f) calls)
       end
  ∧ (calls = [] ↔ ¬ subscribed subs).
Proof.
  intros Hs Hd Hw calls. split.
  - unfold main. fold calls.
    assert (E0 : Status h "Starting" start
                 = {| sdConn := Some 0%nat;
                      trace := [Dial (NOTIFY_SOCKET h) true;
                                ConnWrite 0 ("STATUS=Starting" +:+ LF) true] |}).
    { unfold Status, sdnotify, notifyOpen, connWrite, emit, start. cbn.
      apply String.eqb_neq in Hs. rewrite Hs, Hd. cbn. by rewrite Hw. }
    rewrite E0. destruct calls as [|upd calls']; [done|].
    cbn [fold_left].
    assert (E1 : handler h f
                   (false, {| sdConn := Some 0%nat;
                      trace := [Dial (NOTIFY_SOCKET h) true;
                                ConnWrite 0 ("STATUS=Starting" +:+ LF) true] |})
                   upd
                 = (true, {| sdConn := Some 0%nat;
                      trace := [Dial (NOTIFY_SOCKET h) true;
                                ConnWrite 0 ("STATUS=Starting" +:+ LF) true;
                                ConnWrite 0 ("STATUS=Running" +:+ LF) true;
                                ConnWrite 0 ("READY=1" +:+ LF) true]
                               ++ commands h f [upd] |})).
    { unfold handler, Ready, Status, sdnotify, notifyOpen, connWrite, emit,
        commands. cbn. repeat (rewrite Hw; cbn).
      destruct (String.eqb (cmdName f) ""); cbn; done. }
    rewrite E1.
    match goal with
    | |- trace (snd (fold_left _ _ (true, ?st))) = _ =>
        destruct (handler_fold h f calls' true st) as (a & E & _ & _ & _ & R)
    end.
    rewrite E. destruct (R eq_refl) as [-> _].
    cbn [trace]. unfold commands.
    destruct (String.eqb (cmdName f) ""); cbn; by rewrite ?app_nil_r.
  - subst calls. split.
    + intros Hc Hsub. by rewrite (Monitor_calls_exact _ _ _ _ Hsub) in Hc.
    + intros Hn.
      destruct (Monitor_unsubscribed subs k0 (flgInterval f) evs Hn)
        as (err & -> & _). done.
Qed.

End Daemon.

(** ** From the kernel's rows to the default-route entries *)

Section SnapshotEnv.
Context `{!net.Codec}.

Lemma genUpdate_Routes_map (k : Kernel) (last : option Update) :
  ∃ lnkIdx,
    Update_Routes (genUpdate k last)
    = map (genUpdate_newRoute lnkIdx) (List.filter keepsRoute (RouteList k)).
Proof.
  eexists. rewrite genUpdate_Routes, genUpdate_route_fold. reflexivity.
Qed.

Lemma snapshot_selected (k : Kernel) (last : option Update) (p : Z)
    (d : option Route) :
  selected p (Update_Routes (genUpdate k last)) d →
  (is_Some d ↔ ∃ row, mainDefault k p row)
  ∧ ∀ r, d = Some r →
      mainDefault k p (Route_route r)
      ∧ ∀ row', mainDefault k p row' →
          netlink.Priority (Route_route r) ≤ netlink.Priority row'.
Proof.
  destruct (genUpdate_Routes_map k last) as [lnkIdx ->]. intros Hsel.
  assert (Hin : ∀ row, mainDefault k p row →
            genUpdate_newRoute lnkIdx row
              ∈ map (genUpdate_newRoute lnkIdx)
                  (List.filter keepsRoute (RouteList k))
            ∧ candidate p (genUpdate_newRoute lnkIdx row)).
  { intros row (Hr & Hk & Hd & Hp). split; [|by split].
    apply list_elem_of_fmap. exists row. split; [done|].
    apply list_elem_of_In, filter_In. split; [by apply list_elem_of_In|done]. }
  assert (Hout : ∀ r,
            r ∈ map (genUpdate_newRoute lnkIdx)
                  (List.filter keepsRoute (RouteList k)) →
            candidate p r → mainDefault k p (Route_route r)).
  { intros r Hr [Hd Hp].
    apply list_elem_of_fmap in Hr as (row & -> & Hr).
    apply list_elem_of_In, filter_In in Hr as [Hr Hk].
    split; [by apply list_elem_of_In|]. by split. }
  split.
  - split.
    + intros [r ->]. destruct Hsel as (i & Hi & Hc & _).
      exists (Route_route r). apply Hout; [|done].
      by eapply list_elem_of_lookup_2.
    + intros [row Hrow]. destruct d as [r|]; [by eexists|]. exfalso.
      destruct (Hin row Hrow) as [Hr Hc]. by apply (Hsel _ Hr).
  - intros r ->. destruct Hsel as (i & Hi & Hc & Hmin). split.
    + apply Hout; [|done]. by eapply list_elem_of_lookup_2.
    + intros row' Hrow'. destruct (Hin row' Hrow') as [Hr' Hc'].
      apply list_elem_of_lookup_1 in Hr' as [j Hj].
      destruct (Hmin j _ Hj Hc') as [Hlt|[Heq _]]; cbn in *; lia.
Qed.

(** The default routes in the environment of a snapshot are kernel rows of
    the main table.  A family (4 or 6, read from the protocol field) has a
    default route exactly when the kernel lists a row without destination
    that the snapshot keeps; the route chosen is such a row and no such row
    has a lower priority value.  Its interface entry is always in the
    output, with the name of its link, and its gateway entry when it has a
    gateway. *)
Theorem snapshot_default_route (k : Kernel) (last : option Update)
    (ifs : list (string * Interface)) :
  let u := genUpdate k last in
  let defRouteIPv4 := fst (MarshalEnv_defRoutes (Update_Routes u)) in
  let defRouteIPv6 := snd (MarshalEnv_defRoutes (Update_Routes u)) in
  (is_Some defRouteIPv4 ↔ ∃ row, mainDefault k 4 row)
  ∧ (is_Some defRouteIPv6 ↔ ∃ row, mainDefault k 6 row)
  ∧ (∀ r, defRouteIPv4 = Some r →
       mainDefault k 4 (Route_route r)
       ∧ (∀ row', mainDefault k 4 row' →
            netlink.Priority (Route_route r) ≤ netlink.Priority row')
       ∧ "IPMON_IPV4_IF=" +:+ Route_Link r ∈ MarshalEnv_ranging ifs u
       ∧ (net.nonnil (netlink.Gw (Route_route r)) = true →
          "IPMON_IPV4_GW=" +:+ net.IP_String (netlink.Gw (Route_route r))
            ∈ MarshalEnv_ranging ifs u))
  ∧ (∀ r, defRouteIPv6 = Some r →
       mainDefault k 6 (Route_route r)
       ∧ (∀ row', mainDefault k 6 row' →
            netlink.Priority (Route_route r) ≤ netlink.Priority row')
       ∧ "IPMON_IPV6_IF=" +:+ Route_Link r ∈ MarshalEnv_ranging ifs u
       ∧ (net.nonnil (netlink.Gw (Route_route r)) = true →
          "IPMON_IPV6_GW=" +:+ net.IP_String (netlink.Gw (Route_route r))
            ∈ MarshalEnv_ranging ifs u)).
Proof.
  intros u defRouteIPv4 defRouteIPv6.
  destruct (MarshalEnv_defRoutes_selected (Update_Routes u)) as [H4 H6].
  fold defRouteIPv4 in H4. fold defRouteIPv6 in H6.
  destruct (snapshot_selected k last 4 defRouteIPv4 H4) as [S4 R4].
  destruct (snapshot_selected k last 6 defRouteIPv6 H6) as [S6 R6].
  split; [exact S4|]. split; [exact S6|]. split.
  - intros r Hr. destruct (R4 r Hr) as [Hm Hmin].
    split; [exact Hm|]. split; [exact Hmin|]. split.
    + apply MarshalEnv_defRoute_in_output. left.
      fold defRouteIPv4. rewrite Hr. cbn.
      rewrite ?elem_of_app, ?elem_of_cons. by eauto.
    + intros Hgw. apply MarshalEnv_defRoute_in_output. left.
      fold defRouteIPv4. rewrite Hr. cbn. rewrite Hgw.
      rewrite ?elem_of_app, ?elem_of_cons. by eauto.
  - intros r Hr. destruct (R6 r Hr) as [Hm Hmin].
    split; [exact Hm|]. split; [exact Hmin|]. split.
    + apply MarshalEnv_defRoute_in_output. right.
      fold defRouteIPv6. rewrite Hr. cbn.
      rewrite ?elem_of_app, ?elem_of_cons. by eauto.
    + intros Hgw. apply MarshalEnv_defRoute_in_output. right.
      fold defRouteIPv6. rewrite Hr. cbn. rewrite Hgw.
      rewrite ?elem_of_app, ?elem_of_cons. by eauto.
Qed.

End SnapshotEnv.

(** ** The properties on the sample host *)

Section Sample.
Local Existing Instance sample.codec.

Lemma genUpdate_addresses_unicast_sample :
  Update_Interfaces (genUpdate sample.kernel None) !! "eth0"
  = Some sample.eth0_inf
  ∧ sample.eth0_v4 ∈ Interface_Addr sample.eth0_inf
  ∧ (net.IsLinkLocalUnicast (netlink.IP (Address_N sample.eth0_v4)) = true
     ∨ net.IsGlobalUnicast (netlink.IP (Address_N sample.eth0_v4)) = true)
  ∧ net.IsLoopback (netlink.IP (Address_N sample.eth0_v4)) = false
  ∧ net.IsMulticast (netlink.IP (Address_N sample.eth0_v4)) = false
  ∧ net.IsUnspecified (netlink.IP (Address_N sample.eth0_v4)) = false.
Proof.
  assert (Hn : Update_Interfaces (genUpdate sample.kernel None) !! "eth0"
               = Some sample.eth0_inf) by (vm_compute; reflexivity).
  assert (Ha : sample.eth0_v4 ∈ Interface_Addr sample.eth0_inf)
    by (apply list_elem_of_In; left; reflexivity).
  split; [exact Hn|]. split; [exact Ha|].
  exact (genUpdate_addresses_unicast sample.kernel None "eth0"
           sample.eth0_inf sample.eth0_v4 Hn Ha).
Defined.

Lemma genUpdate_routes_main_table_sample :
  sample.default_50 ∈ Update_Routes (genUpdate sample.kernel None)
  ∧ Route_route sample.default_50 ∈ RouteList sample.kernel
  ∧ netlink.Table (Route_route sample.default_50) = 254
  ∧ (netlink.Scope (Route_route sample.default_50) = netlink.SCOPE_UNIVERSE
     ∨ netlink.Scope (Route_route sample.default_50) = netlink.SCOPE_LINK)
  ∧ (∀ dst, netlink.Dst (Route_route sample.default_50) = Some dst →
            net.IsLinkLocalUnicast (net.IPNet_IP dst) = false)
  ∧ (Route_Destination sample.default_50 = "default"
     ↔ netlink.Dst (Route_route sample.default_50) = None).
Proof.
  assert (Hr : sample.default_50 ∈ Update_Routes (genUpdate sample.kernel None))
    by (apply list_elem_of_In; right; left; vm_compute; reflexivity).
  split; [exact Hr|].
  exact (genUpdate_routes_main_table sample.kernel None sample.default_50 Hr).
Defined.

Lemma genUpdate_route_texts_sample :
  sample.default_100 ∈ Update_Routes (genUpdate sample.kernel None)
  ∧ Route_Gateway sample.default_100 = "192.168.1.1"
  ∧ Route_Src sample.default_100 = "".
Proof.
  assert (Hr : sample.default_100 ∈ Update_Routes (genUpdate sample.kernel None))
    by (apply list_elem_of_In; left; vm_compute; reflexivity).
  split; [exact Hr|].
  exact (genUpdate_route_texts sample.kernel None sample.default_100 Hr).
Defined.

Lemma MarshalEnv_unique_local_excluded_sample :
  net.To4 (net.ParseIP (Address_Address sample.eth0_ula)) = None
  ∧ net.IsPrivate (net.ParseIP (Address_Address sample.eth0_ula)) = true
  ∧ MarshalEnv_addr "eth0" sample.eth0_ula = []
  ∧ net.To4 (net.ParseIP (Address_Address sample.eth0_ll6)) = None
  ∧ net.IsLinkLocalUnicast (net.ParseIP (Address_Address sample.eth0_ll6)) = true
  ∧ "IPMON_LL_IPV6_eth0=fe80::1" ∈ MarshalEnv_addr "eth0" sample.eth0_ll6.
Proof.
  assert (H4 : net.To4 (net.ParseIP (Address_Address sample.eth0_ula)) = None)
    by reflexivity.
  assert (Hp : net.IsPrivate (net.ParseIP (Address_Address sample.eth0_ula)) = true)
    by reflexivity.
  assert (H4' : net.To4 (net.ParseIP (Address_Address sample.eth0_ll6)) = None)
    by reflexivity.
  assert (Hl : net.IsLinkLocalUnicast
                 (net.ParseIP (Address_Address sample.eth0_ll6)) = true)
    by reflexivity.
  split; [exact H4|]. split; [exact Hp|].
  split;
    [exact (proj1 (proj1 (MarshalEnv_unique_local_excluded "eth0"
                             sample.eth0_ula H4) Hp))|].
  split; [exact H4'|]. split; [exact Hl|].
  exact (proj1 (proj2 (MarshalEnv_unique_local_excluded "eth0"
                         sample.eth0_ll6 H4') Hl)).
Defined.

Lemma MarshalEnv_deterministic_sample :
  range_of (Update_Interfaces (genUpdate sample.kernel None))
           [("lo", sample.lo_inf); ("eth0", sample.eth0_inf)]
  ∧ range_of (Update_Interfaces (genUpdate sample.kernel None))
             [("eth0", sample.eth0_inf); ("lo", sample.lo_inf)]
  ∧ MarshalEnv_ranging [("lo", sample.lo_inf); ("eth0", sample.eth0_inf)]
                       (genUpdate sample.kernel None)
    = MarshalEnv_ranging [("eth0", sample.eth0_inf); ("lo", sample.lo_inf)]
                         (genUpdate sample.kernel None).
Proof.
  assert (Hm : map_to_list (Update_Interfaces (genUpdate sample.kernel None))
               = [("eth0", sample.eth0_inf); ("lo", sample.lo_inf)])
    by (vm_compute; reflexivity).
  assert (H1 : range_of (Update_Interfaces (genUpdate sample.kernel None))
                        [("lo", sample.lo_inf); ("eth0", sample.eth0_inf)])
    by (unfold range_of; rewrite Hm; apply perm_swap).
  assert (H2 : range_of (Update_Interfaces (genUpdate sample.kernel None))
                        [("eth0", sample.eth0_inf); ("lo", sample.lo_inf)])
    by (unfold range_of; rewrite Hm; reflexivity).
  split; [exact H1|]. split; [exact H2|].
  exact (MarshalEnv_deterministic (genUpdate sample.kernel None) _ _ H1 H2).
Defined.


Lemma Monitor_error_only_from_subscriptions_sample :
  subscribed sample.subs_ok
  ∧ fst (Monitor sample.subs_ok sample.kernel 30
           (sample.quiet ++ [(sample.kernel, CtxDone)]))
    = Returned None
  ∧ ¬ subscribed sample.subs_route_fails
  ∧ ∃ err, Monitor sample.subs_route_fails sample.kernel 30 sample.quiet
           = (Returned (Some err), []).
Proof.
  assert (Hs : subscribed sample.subs_ok) by (repeat split).
  assert (Hf : ¬ subscribed sample.subs_route_fails)
    by (intros (_ & _ & Hr & _); discriminate Hr).
  split; [exact Hs|]. split; [|split; [exact Hf|]].
  - refine (proj2 (proj1 (proj2 (proj2
              (Monitor_error_only_from_subscriptions sample.subs_ok
                 sample.kernel 30 (sample.quiet ++ [(sample.kernel, CtxDone)]))))
              Hs) eq_refl sample.quiet sample.kernel CtxDone [] eq_refl _
              eq_refl).
    repeat constructor.
  - exact (proj1 (proj2
             (Monitor_error_only_from_subscriptions sample.subs_route_fails
                sample.kernel 30 sample.quiet)) Hf).
Defined.


(** C9 as first stated fails for the neighbour channel: it is one of the
    four category channels, and when it is closed [Monitor] does not
    return; it goes on waiting, the initial update handed over. *)
Lemma Monitor_neighbour_closing_unseen :
  subscribed sample.subs_ok
  ∧ channel_closed (NeighUpd None) = true
  ∧ Monitor sample.subs_ok sample.kernel 0 [(sample.kernel, NeighUpd None)]
    = (Waiting, [set_Type "init" (genUpdate sample.kernel None)])
  ∧ fst (Monitor sample.subs_ok sample.kernel 0
           [(sample.kernel, NeighUpd None)]) ≠ Returned None.
Proof. repeat split. discriminate. Qed.

Lemma genUpdate_route_link_sample :
  sample.default_50 ∈ Update_Routes (genUpdate sample.kernel None)
  ∧ listed sample.kernel sample.eth0
      {| netlink.Index := 2; netlink.Name := "eth0"; netlink.Flags := 0x13 |}
  ∧ ∃ l attrs, listed sample.kernel l attrs
      ∧ netlink.Index attrs = netlink.LinkIndex (Route_route sample.default_50)
      ∧ netlink.Name attrs = Route_Link sample.default_50.
Proof.
  assert (Hr : sample.default_50 ∈ Update_Routes (genUpdate sample.kernel None))
    by (apply list_elem_of_In; right; left; vm_compute; reflexivity).
  assert (Hl : listed sample.kernel sample.eth0
                 {| netlink.Index := 2; netlink.Name := "eth0";
                    netlink.Flags := 0x13 |}).
  { split; [|reflexivity]. apply list_elem_of_In. right. right. left.
    reflexivity. }
  split; [exact Hr|]. split; [exact Hl|].
  apply (proj2 (genUpdate_route_link sample.kernel None sample.default_50 Hr)).
  eexists _, _. split; [exact Hl|reflexivity].
Defined.

Lemma genUpdate_address_fields_sample :
  Update_Interfaces (genUpdate sample.kernel None) !! "eth0"
  = Some sample.eth0_inf
  ∧ sample.eth0_v4 ∈ Interface_Addr sample.eth0_inf
  ∧ Address_Address sample.eth0_v4 = "192.168.1.10"
  ∧ 0 ≤ Address_CIDR sample.eth0_v4 ≤ 32.
Proof.
  assert (Hn : Update_Interfaces (genUpdate sample.kernel None) !! "eth0"
               = Some sample.eth0_inf) by (vm_compute; reflexivity).
  assert (Ha : sample.eth0_v4 ∈ Interface_Addr sample.eth0_inf)
    by (apply list_elem_of_In; left; reflexivity).
  split; [exact Hn|]. split; [exact Ha|].
  exact (proj2 (genUpdate_address_fields sample.kernel None "eth0"
                  sample.eth0_inf sample.eth0_v4 Hn Ha)).
Defined.

Lemma linkUpdate_change_tags_sample :
  Update_Change (genUpdate sample.kernel None) = []
  ∧ (unix.IFF_UP, "up", "down") ∈ trackedFlags
  ∧ "up" ∈ Update_Change
             (fst (linkUpdate (genUpdate sample.kernel None) sample.link_up)).
Proof.
  assert (Hc : Update_Change (genUpdate sample.kernel None) = [])
    by reflexivity.
  assert (Hf : (unix.IFF_UP, "up", "down") ∈ trackedFlags)
    by (apply list_elem_of_In; left; reflexivity).
  split; [exact Hc|]. split; [exact Hf|].
  apply (proj1 (linkUpdate_change_tags (genUpdate sample.kernel None)
                  sample.link_up unix.IFF_UP "up" "down" Hc Hf)).
  split; reflexivity.
Defined.

Lemma MarshalEnv_interface_entries_sample :
  ("eth0", sample.eth0_inf)
    ∈ [("lo", sample.lo_inf); ("eth0", sample.eth0_inf)]
  ∧ "IPMON_UP_eth0=1"
      ∈ MarshalEnv_ranging [("lo", sample.lo_inf); ("eth0", sample.eth0_inf)]
          (genUpdate sample.kernel None)
  ∧ MarshalEnv_addr "eth0" sample.eth0_v4
    = ["IPMON_IPV4_TTL_eth0=3600"; "IPMON_IPV4_eth0=192.168.1.10";
       "IPMON_IPV4_MASK_eth0=24"].
Proof.
  assert (Hn : ("eth0", sample.eth0_inf)
                 ∈ [("lo", sample.lo_inf); ("eth0", sample.eth0_inf)])
    by (apply list_elem_of_In; right; left; reflexivity).
  assert (Ha : sample.eth0_v4 ∈ Interface_Addr sample.eth0_inf)
    by (apply list_elem_of_In; left; reflexivity).
  split; [exact Hn|].
  destruct (MarshalEnv_interface_entries _ (genUpdate sample.kernel None)
              "eth0" sample.eth0_inf Hn) as [Hup Haddr].
  split; [exact Hup|].
  exact (proj1 (proj2 (Haddr sample.eth0_v4 Ha)) eq_refl eq_refl).
Defined.

Lemma MarshalEnv_addr_unparseable_sample :
  net.len (net.ParseIP (Address_Address sample.bogus)) ≠ net.IPv4len
  ∧ net.len (net.ParseIP (Address_Address sample.bogus)) ≠ net.IPv6len
  ∧ MarshalEnv_addr "eth0" sample.bogus = [].
Proof.
  assert (H4 : net.len (net.ParseIP (Address_Address sample.bogus))
               ≠ net.IPv4len) by discriminate.
  assert (H6 : net.len (net.ParseIP (Address_Address sample.bogus))
               ≠ net.IPv6len) by discriminate.
  split; [exact H4|]. split; [exact H6|].
  exact (MarshalEnv_addr_unparseable "eth0" sample.bogus H4 H6).
Defined.

Lemma linkUpdate_env_sample :
  snd (linkUpdate (genUpdate sample.kernel None) sample.link_up) = true
  ∧ "IPMON_CHANGE=up"
      ∈ MarshalEnv (fst (linkUpdate (genUpdate sample.kernel None)
                           sample.link_up))
  ∧ "IPMON_LINK=eth0"
      ∈ MarshalEnv (fst (linkUpdate (genUpdate sample.kernel None)
                           sample.link_up)).
Proof.
  assert (Hn : snd (linkUpdate (genUpdate sample.kernel None) sample.link_up)
               = true) by reflexivity.
  split; [exact Hn|]. unfold MarshalEnv. split.
  - apply (proj1 (proj2 (linkUpdate_env sample.kernel None sample.link_up
                           _ "up" Hn))).
    reflexivity.
  - apply (proj2 (proj2 (linkUpdate_env sample.kernel None sample.link_up
                           _ "eth0" Hn))).
    split; [discriminate|reflexivity].
Defined.

Lemma Monitor_calls_sample :
  subscribed sample.subs_ok
  ∧ snd (Monitor sample.subs_ok sample.kernel 30 sample.quiet)
    = set_Type "init" (genUpdate sample.kernel None)
      :: omap (react 30) (until_return sample.quiet)
  ∧ is_Some (react 30 (sample.kernel, TmrCh)).
Proof.
  assert (Hs : subscribed sample.subs_ok) by (repeat split).
  split; [exact Hs|].
  destruct (Monitor_calls sample.subs_ok sample.kernel 30 sample.quiet Hs)
    as (Hcalls & _ & Hreact).
  split; [exact Hcalls|].
  apply (Hreact sample.kernel TmrCh). reflexivity.
Defined.

Lemma Monitor_delivers_snapshots_sample :
  set_Type "init" (genUpdate sample.kernel None)
    ∈ snd (Monitor sample.subs_ok sample.kernel 30 sample.quiet)
  ∧ Update_Type (set_Type "init" (genUpdate sample.kernel None))
      ∈ ["init"; "address"; "link"; "route"; "default_route"; "interval"]
  ∧ ∃ k, k ∈ sample.kernel :: map fst sample.quiet
         ∧ Update_Interfaces (set_Type "init" (genUpdate sample.kernel None))
           = Update_Interfaces (genUpdate k None)
         ∧ Update_Routes (set_Type "init" (genUpdate sample.kernel None))
           = Update_Routes (genUpdate k None).
Proof.
  assert (Hu : set_Type "init" (genUpdate sample.kernel None)
                 ∈ snd (Monitor sample.subs_ok sample.kernel 30 sample.quiet)).
  { rewrite Monitor_calls_exact by (repeat split). by left. }
  split; [exact Hu|].
  destruct (Monitor_delivers_snapshots sample.subs_ok sample.kernel 30
              sample.quiet _ Hu) as [Hk Ht].
  split; [exact Ht|exact Hk].
Defined.

Lemma main_supervised_sample :
  ipmond.NOTIFY_SOCKET sample.supervisor ≠ ""
  ∧ (∀ n, ipmond.dials sample.supervisor n = true)
  ∧ (∀ n, ipmond.writes sample.supervisor n = true)
  ∧ ipmond.trace
      (ipmond.main sample.supervisor sample.flags sample.subs_route_fails
         sample.kernel sample.quiet)
    = [ipmond.Dial "/run/systemd/notify" true;
       ipmond.ConnWrite 0 ("STATUS=Starting" +:+ ipmond.LF) true].
Proof.
  assert (Hs : ipmond.NOTIFY_SOCKET sample.supervisor ≠ "") by discriminate.
  assert (Hd : ∀ n, ipmond.dials sample.supervisor n = true)
    by (intros n; reflexivity).
  assert (Hw : ∀ n, ipmond.writes sample.supervisor n = true)
    by (intros n; reflexivity).
  split; [exact Hs|]. split; [exact Hd|]. split; [exact Hw|].
  exact (proj1 (main_supervised sample.supervisor sample.flags
                  sample.subs_route_fails sample.kernel sample.quiet
                  Hs Hd Hw)).
Defined.

End Sample.
